(** * md_to_latex: a shallow embedding of [src/md_to_latex.py]

    The program is one class, [MarkdownToLatexConverter], whose [convert]
    method pipes a text through eight rewriting passes, and a command-line
    entry point [main].  Python strings are sequences of Unicode code points;
    they are modelled as lists of code points ([N]).  The passes are written
    with Python's [re] module: the fragment of its backtracking matcher that
    the source's patterns need is embedded in [Module Re], with Python's
    priority order (greedy before lazy alternatives, leftmost match first). *)

From Stdlib Require Import String Ascii List NArith ZArith Bool Lia.
From Stdlib Require Import Floats.SpecFloat.
Import ListNotations.

Set Implicit Arguments.
Local Open Scope N_scope.
Local Open Scope list_scope.

(** ** Python [str] values *)

Definition char := N.
Definition str := list char.

(** An ASCII literal of the source, as a Python string. *)
Definition lit (s : string) : str := map N_of_ascii (list_ascii_of_string s).

Definition nl : char := 10.
Definition cr : char := 13.
Definition tab : char := 9.
Definition space : char := 32.
Definition star : char := 42.
Definition underscore : char := 95.

Definition chr_is (c : char) : char -> bool := N.eqb c.
Definition chr_isnt (c : char) : char -> bool := fun d => negb (N.eqb c d).

Fixpoint str_eqb (a b : str) : bool :=
  match a, b with
  | [], [] => true
  | x :: a', y :: b' => N.eqb x y && str_eqb a' b'
  | _, _ => false
  end.

Fixpoint starts_with (p s : str) : bool :=
  match p, s with
  | [], _ => true
  | x :: p', y :: s' => N.eqb x y && starts_with p' s'
  | _ :: _, [] => false
  end.

(** [needle in s] *)
Fixpoint contains (needle s : str) : bool :=
  starts_with needle s ||
  match s with
  | [] => false
  | _ :: s' => contains needle s'
  end.

(** ** Character tables of the Python runtime (Unicode 14, CPython 3.11) *)
Module Unicode.

Definition in_ranges (rs : list (N * N)) (c : char) : bool :=
  existsb (fun r => (fst r <=? c) && (c <=? snd r)) rs.

(** [str.isspace], which is what [\s] tests on a [str] pattern. *)
Definition whitespace_ranges : list (N * N) :=
  [(9, 13); (28, 32); (133, 133); (160, 160); (5760, 5760); (8192, 8202);
   (8232, 8233); (8239, 8239); (8287, 8287); (12288, 12288)].

Definition isspace : char -> bool := in_ranges whitespace_ranges.

(** [str.isdecimal] (general category Nd), which is what [\d] tests. *)
Definition decimal_ranges : list (N * N) :=
  [(48, 57); (1632, 1641); (1776, 1785); (1984, 1993); (2406, 2415);
   (2534, 2543); (2662, 2671); (2790, 2799); (2918, 2927); (3046, 3055);
   (3174, 3183); (3302, 3311); (3430, 3439); (3558, 3567); (3664, 3673);
   (3792, 3801); (3872, 3881); (4160, 4169); (4240, 4249); (6112, 6121);
   (6160, 6169); (6470, 6479); (6608, 6617); (6784, 6793); (6800, 6809);
   (6992, 7001); (7088, 7097); (7232, 7241); (7248, 7257); (42528, 42537);
   (43216, 43225); (43264, 43273); (43472, 43481); (43504, 43513);
   (43600, 43609); (44016, 44025); (65296, 65305); (66720, 66729);
   (68912, 68921); (69734, 69743); (69872, 69881); (69942, 69951);
   (70096, 70105); (70384, 70393); (70736, 70745); (70864, 70873);
   (71248, 71257); (71360, 71369); (71472, 71481); (71904, 71913);
   (72016, 72025); (72784, 72793); (73040, 73049); (73120, 73129);
   (92768, 92777); (92864, 92873); (93008, 93017); (120782, 120831);
   (123200, 123209); (123632, 123641); (125264, 125273); (130032, 130041)].

Definition isdecimal : char -> bool := in_ranges decimal_ranges.

End Unicode.

(** ** The fragment of Python's [re] used by the source *)
Module Re.

(** Patterns.  Every repetition in the source quantifies a single
    character test ([.+], [.+?], [[^*]+?], [\s*], [\d+], [ {2,}], [\n+]),
    so [Rep] carries a character test, a lower bound and the greedy flag. *)
Inductive re : Type :=
| Eps
| Chr (p : char -> bool)
| Seq (r1 r2 : re)
| Rep (p : char -> bool) (min : nat) (greedy : bool)
| Grp (r : re)
| Bol (multiline : bool)
| EolM
| NotBehind (c : char)
| NotAhead (c : char).

(** [.] without DOTALL. *)
Definition dot : char -> bool := chr_isnt nl.

Definition seqs (rs : list re) : re := fold_right Seq Eps rs.
Definition Str (s : string) : re := seqs (map (fun c => Chr (chr_is c)) (lit s)).

(** A match in progress: the character before the cursor ([None] at the
    start of the string), the text from the cursor on, the groups closed so
    far.  A successful match returns the groups and the unread text. *)
Definition outcome := option (list str * str).
Definition cont := option char -> str -> list str -> outcome.

(** The loop of a repetition: greedy takes a further character first and
    falls back to the continuation; lazy tries the continuation first. *)
Fixpoint rep (p : char -> bool) (greedy : bool)
         (k : option char -> str -> outcome)
         (min : nat) (prev : option char) (s : str) {struct s} : outcome :=
  match min with
  | S m =>
      match s with
      | c :: s' => if p c then rep p greedy k m (Some c) s' else None
      | [] => None
      end
  | O =>
      if greedy then
        match
          match s with
          | c :: s' => if p c then rep p greedy k O (Some c) s' else None
          | [] => None
          end
        with
        | Some r => Some r
        | None => k prev s
        end
      else
        match k prev s with
        | Some r => Some r
        | None =>
            match s with
            | c :: s' => if p c then rep p greedy k O (Some c) s' else None
            | [] => None
            end
        end
  end.

Fixpoint run (r : re) (k : cont) (prev : option char) (s : str)
         (caps : list str) {struct r} : outcome :=
  match r with
  | Eps => k prev s caps
  | Chr p =>
      match s with
      | c :: s' => if p c then k (Some c) s' caps else None
      | [] => None
      end
  | Seq r1 r2 => run r1 (run r2 k) prev s caps
  | Rep p min greedy => rep p greedy (fun pv s' => k pv s' caps) min prev s
  | Grp r1 =>
      run r1
        (fun pv s' caps' =>
           k pv s' (caps' ++ [firstn (length s - length s') s]))
        prev s caps
  | Bol multiline =>
      match prev with
      | None => k prev s caps
      | Some c => if multiline && N.eqb c nl then k prev s caps else None
      end
  | EolM =>
      match s with
      | [] => k prev s caps
      | c :: _ => if N.eqb c nl then k prev s caps else None
      end
  | NotBehind c =>
      match prev with
      | Some d => if N.eqb c d then None else k prev s caps
      | None => k prev s caps
      end
  | NotAhead c =>
      match s with
      | d :: _ => if N.eqb c d then None else k prev s caps
      | [] => k prev s caps
      end
  end.

Definition done : cont := fun _ s caps => Some (caps, s).

(** A match attempt at the cursor: groups and the number of characters of
    the whole match. *)
Definition match_at (r : re) (prev : option char) (s : str)
  : option (list str * nat) :=
  match run r done prev s [] with
  | Some (caps, rest) => Some (caps, (length s - length rest)%nat)
  | None => None
  end.

(** [m.group(i)], for [i >= 1]. *)
Definition group (caps : list str) (i : nat) : str := nth (pred i) caps [].

(** [re.match(r, line)]: a match attempt at the start of the string. *)
Definition re_match (r : re) (line : str) : option (list str) :=
  match match_at r None line with
  | Some (caps, _) => Some caps
  | None => None
  end.

(** [re.sub(r, repl, text)]: leftmost matches, left to right, never
    overlapping.  [repl] receives [m.group(0)] and the groups.  While
    [skip] is positive the cursor is inside the previous match.  Every
    pattern of the source consumes at least one character, so the rules of
    [re] for empty matches never apply. *)
Fixpoint sub_loop (r : re) (repl : str -> list str -> str)
         (skip : nat) (prev : option char) (s : str) {struct s} : str :=
  match s with
  | [] => []
  | c :: s' =>
      match skip with
      | S n => sub_loop r repl n (Some c) s'
      | O =>
          match match_at r prev s with
          | Some (caps, n) =>
              repl (firstn n s) caps ++ sub_loop r repl (pred n) (Some c) s'
          | None => c :: sub_loop r repl O (Some c) s'
          end
      end
  end.

Definition sub (r : re) (repl : str -> list str -> str) (text : str) : str :=
  sub_loop r repl O None text.

(** A replacement template [prefix \1 suffix]. *)
Definition template (pre post : string) : str -> list str -> str :=
  fun _ caps => lit pre ++ group caps 1 ++ lit post.

End Re.

(** ** Methods of Python's [str] *)
Module PyStr.

(** [text.replace(c, new)] for a one-character [c]. *)
Definition replace (c : char) (new : str) (text : str) : str :=
  flat_map (fun d => if N.eqb c d then new else [d]) text.

(** [text.split(sep)] for a one-character separator. *)
Fixpoint split (sep : char) (text : str) : list str :=
  match text with
  | [] => [[]]
  | c :: s' =>
      if N.eqb c sep then [] :: split sep s'
      else match split sep s' with
           | l :: ls => (c :: l) :: ls
           | [] => [[c]]
           end
  end.

(** [sep.join(parts)] *)
Fixpoint join (sep : str) (parts : list str) : str :=
  match parts with
  | [] => []
  | [l] => l
  | l :: ls => l ++ sep ++ join sep ls
  end.

(** [s * n] *)
Fixpoint times (s : str) (n : nat) : str :=
  match n with
  | O => []
  | S m => s ++ times s m
  end.

(** [text.expandtabs(tabsize)]: the column restarts after a line feed or a
    carriage return, a tab becomes the spaces up to the next multiple of
    [tabsize] and disappears when [tabsize] is zero. *)
Fixpoint expandtabs_from (tabsize col : nat) (text : str) : str :=
  match text with
  | [] => []
  | c :: s' =>
      if N.eqb c tab then
        match tabsize with
        | O => expandtabs_from tabsize col s'
        | S _ =>
            let incr := (tabsize - Nat.modulo col tabsize)%nat in
            repeat space incr ++ expandtabs_from tabsize (col + incr) s'
        end
      else
        c :: expandtabs_from tabsize
               (if N.eqb c nl || N.eqb c cr then O else S col) s'
  end.

Definition expandtabs (tabsize : nat) (text : str) : str :=
  expandtabs_from tabsize O text.

(** [str(n)] for a non-negative integer *)
Fixpoint digits_of (fuel : nat) (n : N) (acc : str) : str :=
  match fuel with
  | O => acc
  | S f =>
      let acc' := (48 + N.modulo n 10) :: acc in
      if n <? 10 then acc' else digits_of f (N.div n 10) acc'
  end.

Definition str_of_N (n : N) : str := digits_of (S (N.to_nat (N.log2 n))) n [].

End PyStr.

(** ** Python's [float]: binary64 arithmetic and [str(float)]

    The whitespace pass computes [len(m.group(0)) * 0.3] in binary64 and
    prints it with [str].  Arithmetic is the Standard Library's [SpecFloat]
    at precision 53; [str] is the shortest decimal that reads back as the
    same float, laid out as CPython's format code [r] does. *)
Module PyFloat.
Local Open Scope Z_scope.

Definition prec : Z := 53.
Definition emax : Z := 1024.

(** [float(n)], rounding to nearest even *)
Definition of_int (n : Z) : spec_float := binary_normalize prec emax n 0 false.

(** The literal [0.3]: 0x3FD3333333333333 *)
Definition lit_0_3 : spec_float := S754_finite false 5404319552844595 (-54).

Definition mul : spec_float -> spec_float -> spec_float := SFmul prec emax.

(** [2^e] and [10^q] as fractions of positive integers *)
Definition pow_frac (b e : Z) : Z * Z :=
  if 0 <=? e then (b ^ e, 1) else (1, b ^ (- e)).

Section Shortest.
(** The float [m * 2^e], in units of [u = 2^(e-2)]: the value is [4m],
    the floats that round to it lie between [lo] and [hi]. *)
Variables (m : positive) (e : Z).

Let un := fst (pow_frac 2 (e - 2)).
Let ud := snd (pow_frac 2 (e - 2)).
Definition mid : Z := 4 * Zpos m.
Definition hi : Z := 4 * Zpos m + 2.
Definition lo : Z :=
  if (Zpos m =? 2 ^ 52) && (-1074 <? e) then 4 * Zpos m - 1
  else 4 * Zpos m - 2.
Definition closed : bool := Z.even (Zpos m).

(** [value < 10^p] *)
Definition below_pow10 (p : Z) : bool :=
  let '(tn, td) := pow_frac 10 p in mid * un * td <? tn * ud.

Fixpoint search_up (fuel : nat) (p : Z) : Z :=
  match fuel with
  | O => p
  | S f => if below_pow10 p then p else search_up f (p + 1)
  end.

Fixpoint search_down (fuel : nat) (p : Z) : Z :=
  match fuel with
  | O => p
  | S f => if below_pow10 (p - 1) then search_down f (p - 1) else p
  end.

(** The least [p] with [value < 10^p]; binary64 keeps it within
    [-323, 309], far inside the 400 steps allowed. *)
Definition decimal_exponent : Z :=
  if below_pow10 0 then search_down 400 0 else search_up 400 1.

(** Is [d * 10^q] read back as this float? *)
Definition reads_back (d q : Z) : bool :=
  let '(tn, td) := pow_frac 10 q in
  let v := d * tn * ud in
  if closed then (lo * un * td <=? v) && (v <=? hi * un * td)
  else (lo * un * td <? v) && (v <? hi * un * td).

(** The decimal with [k] digits nearest to the value, if one reads back. *)
Definition candidate (p : Z) (k : Z) : option (Z * Z) :=
  let q := p - k in
  let '(tn, td) := pow_frac 10 q in
  let d0 := (mid * un * td) / (ud * tn) in
  let d1 := d0 + 1 in
  let below := mid * un * td - d0 * tn * ud in
  let above := d1 * tn * ud - mid * un * td in
  match reads_back d0 q, reads_back d1 q with
  | true, true =>
      if below <? above then Some (d0, q)
      else if above <? below then Some (d1, q)
      else Some (if Z.even d0 then d0 else d1, q)
  | true, false => Some (d0, q)
  | false, true => Some (d1, q)
  | false, false => None
  end.

Fixpoint shortest_from (fuel : nat) (p k : Z) : Z * Z :=
  match fuel with
  | O => ((mid * un * snd (pow_frac 10 (p - k)))
            / (ud * fst (pow_frac 10 (p - k))), p - k)
  | S f =>
      match candidate p k with
      | Some r => r
      | None => shortest_from f p (k + 1)
      end
  end.

(** Seventeen digits always read back. *)
Definition shortest : Z * Z := shortest_from 17 decimal_exponent 1.
End Shortest.

Fixpoint strip_zeros (fuel : nat) (d q : Z) : Z * Z :=
  match fuel with
  | O => (d, q)
  | S f => if (0 <? d) && (d mod 10 =? 0) then strip_zeros f (d / 10) (q + 1)
           else (d, q)
  end.

Definition zeros (n : Z) : str := repeat 48%N (Z.to_nat n).

(** The layout of format code [r]: exponent notation when the decimal
    point is at or before [-4] or beyond [16], and [.0] after an integer. *)
Definition layout (digits : str) (decpt : Z) : str :=
  let len := Z.of_nat (List.length digits) in
  if (decpt <=? -4) || (16 <? decpt) then
    let ex := decpt - 1 in
    let exs := PyStr.str_of_N (Z.to_N (Z.abs ex)) in
    firstn 1 digits
      ++ (if 1 <? len then lit "." ++ skipn 1 digits else [])
      ++ lit "e" ++ (if ex <? 0 then lit "-" else lit "+")
      ++ (if Z.abs ex <? 10 then lit "0" else []) ++ exs
  else if decpt <=? 0 then lit "0." ++ zeros (- decpt) ++ digits
  else if len <=? decpt then digits ++ zeros (decpt - len) ++ lit ".0"
  else firstn (Z.to_nat decpt) digits ++ lit "." ++ skipn (Z.to_nat decpt) digits.

(** [str(x)] *)
Definition str_of_float (x : spec_float) : str :=
  match x with
  | S754_zero s => (if s then lit "-" else []) ++ lit "0.0"
  | S754_infinity s => (if s then lit "-" else []) ++ lit "inf"
  | S754_nan => lit "nan"
  | S754_finite s m e =>
      let '(d, q) := shortest m e in
      let '(d', q') := strip_zeros 17 d q in
      let digits := PyStr.str_of_N (Z.to_N d') in
      (if s then lit "-" else [])
        ++ layout digits (q' + Z.of_nat (List.length digits))
  end.

End PyFloat.

(** ** class MarkdownToLatexConverter *)

(** The object: its only attribute is the symbol table, a [dict] from a
    one-character string to a command, in insertion order. *)
Record MarkdownToLatexConverter : Type := { unicode_map : list (char * str) }.

(** [__init__] *)
Definition init : MarkdownToLatexConverter :=
  {| unicode_map :=
       map (fun e => (fst e, lit (snd e)))
         [ (8469, "\mathbb{N}"); (8484, "\mathbb{Z}"); (8474, "\mathbb{Q}");
           (8477, "\mathbb{R}"); (8450, "\mathbb{C}"); (8709, "\emptyset");
           (8712, "\in"); (8713, "\notin"); (8838, "\subseteq");
           (8834, "\subset"); (8839, "\supseteq"); (8835, "\supset");
           (8746, "\cup"); (8745, "\cap"); (8726, "\setminus");
           (9651, "\triangle"); (215, "\times");
           (8743, "\land"); (8744, "\lor"); (172, "\neg");
           (8594, "\rightarrow"); (8596, "\leftrightarrow");
           (8704, "\forall"); (8707, "\exists"); (8708, "\nexists");
           (8804, "\leq"); (8805, "\geq"); (8800, "\neq"); (8801, "\equiv");
           (8776, "\approx"); (8734, "\infty"); (8721, "\sum");
           (8719, "\prod"); (8747, "\int"); (8706, "\partial");
           (8711, "\nabla");
           (945, "\alpha"); (946, "\beta"); (947, "\gamma");
           (948, "\delta"); (949, "\epsilon"); (950, "\zeta");
           (951, "\eta"); (952, "\theta"); (953, "\iota");
           (954, "\kappa"); (955, "\lambda"); (956, "\mu");
           (957, "\nu"); (958, "\xi"); (960, "\pi");
           (961, "\rho"); (963, "\sigma"); (964, "\tau");
           (965, "\upsilon"); (966, "\phi"); (967, "\chi");
           (968, "\psi"); (969, "\omega");
           (913, "\Alpha"); (914, "\Beta"); (915, "\Gamma");
           (916, "\Delta"); (917, "\Epsilon"); (918, "\Zeta");
           (919, "\Eta"); (920, "\Theta"); (921, "\Iota");
           (922, "\Kappa"); (923, "\Lambda"); (924, "\Mu");
           (925, "\Nu"); (926, "\Xi"); (928, "\Pi");
           (929, "\Rho"); (931, "\Sigma"); (932, "\Tau");
           (933, "\Upsilon"); (934, "\Phi"); (935, "\Chi");
           (936, "\Psi"); (937, "\Omega") ]%string |}.

(** A method runs on [self] and hands the object back with its result. *)
Definition Method (A : Type) : Type :=
  MarkdownToLatexConverter -> A * MarkdownToLatexConverter.

Definition ret {A} (a : A) : Method A := fun self => (a, self).

Definition bind {A B} (m : Method A) (f : A -> Method B) : Method B :=
  fun self => let '(a, self') := m self in f a self'.

(** [self.unicode_map] *)
Definition get_unicode_map : Method (list (char * str)) :=
  fun self => (unicode_map self, self).

Notation "x <- m ;; f" := (bind m (fun x => f))
  (at level 61, m at next level, right associativity).

Import Re.

(** *** convert_unicode_chars *)
Definition wrap_math (latex_cmd : str) : str := lit "$" ++ latex_cmd ++ lit "$".

Definition convert_unicode_chars (text : str) : Method str :=
  table <- get_unicode_map ;;
  ret (fold_left
         (fun text e => PyStr.replace (fst e) (wrap_math (snd e)) text)
         table text).

(** *** convert_headings *)
Definition heading_re (hashes : string) : re :=
  seqs [Bol true; Str hashes; Chr (chr_is space); Grp (Rep dot 1 true); EolM].

Definition convert_headings (text : str) : str :=
  let text := sub (heading_re "#") (template "\section{" "}") text in
  let text := sub (heading_re "##") (template "\subsection{" "}") text in
  let text := sub (heading_re "###") (template "\subsubsection{" "}") text in
  let text := sub (heading_re "####") (template "\paragraph{" "}") text in
  let text := sub (heading_re "#####") (template "\subparagraph{" "}") text in
  text.

(** *** convert_formatting *)
Definition delimited_re (opening closing : string) : re :=
  seqs [Str opening; Grp (Rep dot 1 false); Str closing].

Definition italic_re (d : char) : re :=
  seqs [NotBehind d; Chr (chr_is d); Grp (Rep (chr_isnt d) 1 false);
        Chr (chr_is d); NotAhead d].

Definition convert_formatting (text : str) : str :=
  let text := sub (delimited_re "**" "**") (template "\textbf{" "}") text in
  let text := sub (delimited_re "__" "__") (template "\textbf{" "}") text in
  let text := sub (italic_re star) (template "\textit{" "}") text in
  let text := sub (italic_re underscore) (template "\textit{" "}") text in
  let text := sub (delimited_re "<u>" "</u>") (template "\underline{" "}") text in
  let text := sub (delimited_re "^" "^") (template "\textsuperscript{" "}") text in
  let text := sub (delimited_re "~" "~") (template "\textsubscript{" "}") text in
  text.

(** *** convert_lists *)

(** [[*+-]] *)
Definition bullet_char (c : char) : bool :=
  N.eqb c 42 || N.eqb c 43 || N.eqb c 45.

Definition bullet_re : re :=
  seqs [Bol false; Grp (Rep Unicode.isspace 0 true); Chr bullet_char;
        Chr (chr_is space); Grp (Rep dot 1 true)].

Definition numbered_re : re :=
  seqs [Bol false; Grp (Rep Unicode.isspace 0 true);
        Rep Unicode.isdecimal 1 true; Chr (chr_is 46); Chr (chr_is space);
        Grp (Rep dot 1 true)].

(** The variables of the loop *)
Record list_state : Type :=
  { result : list str; in_itemize : bool; in_enumerate : bool }.

Definition result_append (st : list_state) (line : str) : list_state :=
  {| result := result st ++ [line];
     in_itemize := in_itemize st; in_enumerate := in_enumerate st |}.

Definition set_itemize (b : bool) (st : list_state) : list_state :=
  {| result := result st; in_itemize := b; in_enumerate := in_enumerate st |}.

Definition set_enumerate (b : bool) (st : list_state) : list_state :=
  {| result := result st; in_itemize := in_itemize st; in_enumerate := b |}.

Definition item_line (caps : list str) : str :=
  let indent_level := Nat.div (List.length (group caps 1)) 2 in
  let item_text := group caps 2 in
  PyStr.times (lit "  ") indent_level ++ lit "\item " ++ item_text.

(** One iteration of the [while] loop *)
Definition list_step (st : list_state) (line : str) : list_state :=
  match re_match bullet_re line with
  | Some caps =>
      let st := if negb (in_itemize st)
                then set_itemize true (result_append st (lit "\begin{itemize}"))
                else st in
      let st := if in_enumerate st
                then set_enumerate false (result_append st (lit "\end{enumerate}"))
                else st in
      result_append st (item_line caps)
  | None =>
      match re_match numbered_re line with
      | Some caps =>
          let st := if negb (in_enumerate st)
                    then set_enumerate true (result_append st (lit "\begin{enumerate}"))
                    else st in
          let st := if in_itemize st
                    then set_itemize false (result_append st (lit "\end{itemize}"))
                    else st in
          result_append st (item_line caps)
      | None =>
          let st := if in_itemize st
                    then set_itemize false (result_append st (lit "\end{itemize}"))
                    else st in
          let st := if in_enumerate st
                    then set_enumerate false (result_append st (lit "\end{enumerate}"))
                    else st in
          result_append st line
      end
  end.

(** After the loop: close any remaining open lists *)
Definition list_close (st : list_state) : list_state :=
  let st := if in_itemize st then result_append st (lit "\end{itemize}") else st in
  let st := if in_enumerate st then result_append st (lit "\end{enumerate}") else st in
  st.

Definition list_start : list_state :=
  {| result := []; in_itemize := false; in_enumerate := false |}.

Definition convert_lists (text : str) : str :=
  let lines := PyStr.split nl text in
  PyStr.join [nl] (result (list_close (fold_left list_step lines list_start))).

(** *** preserve_whitespace *)
Definition hspace_size (n : nat) : str :=
  PyFloat.str_of_float (PyFloat.mul (PyFloat.of_int (Z.of_nat n)) PyFloat.lit_0_3).

Definition hspace (n : nat) : str := lit "\hspace{" ++ hspace_size n ++ lit "em}".

Definition spaces_re : re := Rep (chr_is space) 2 true.

(** [lambda m: '\\hspace{' + str(len(m.group(0)) * 0.3) + 'em}'] *)
Definition hspace_repl : str -> list str -> str :=
  fun whole _ => hspace (List.length whole).

Definition preserve_whitespace (text : str) : str :=
  let text := PyStr.expandtabs 4 text in
  sub spaces_re hspace_repl text.

(** *** handle_blank_lines *)
Definition blank_lines_re : re :=
  seqs [Chr (chr_is nl); Rep Unicode.isspace 0 true; Chr (chr_is nl);
        Rep Unicode.isspace 0 true; Rep (chr_is nl) 1 true].

Definition vspace : str := [nl; nl] ++ lit "\vspace{\baselineskip}" ++ [nl; nl].

Definition handle_blank_lines (text : str) : str :=
  sub blank_lines_re (fun _ _ => vspace) text.

(** *** escape_latex_chars *)
Definition escape_chars : list (char * str) :=
  map (fun e => (N_of_ascii (fst e), lit (snd e)))
    [ ("&"%char, "\&"); ("%"%char, "\%"); ("$"%char, "\$");
      ("#"%char, "\#"); ("^"%char, "\textasciicircum{}");
      ("_"%char, "\_"); ("{"%char, "\{"); ("}"%char, "\}");
      ("~"%char, "\textasciitilde{}");
      ("\"%char, "\textbackslash{}") ]%string.

(** [['$', '^', '_', '~']] *)
Definition handled_specially : list char := [36; 94; 95; 126].

Definition escape_latex_chars (text : str) : str :=
  fold_left
    (fun text e =>
       if existsb (N.eqb (fst e)) handled_specially then text
       else PyStr.replace (fst e) (snd e) text)
    escape_chars text.

(** *** add_latex_preamble *)
Definition preamble : str :=
  PyStr.join [nl]
    [ lit "\documentclass{article}"; lit "\usepackage[utf8]{inputenc}";
      lit "\usepackage{amsmath}"; lit "\usepackage{amsfonts}";
      lit "\usepackage{amssymb}"; lit "\usepackage[normalem]{ulem}";
      []; lit "\begin{document}"; []; [] ].

Definition postamble : str := nl :: lit "\end{document}".

Definition add_latex_preamble (content : str) : str :=
  preamble ++ content ++ postamble.

(** *** convert *)
Definition convert (markdown_text : str) (add_document_structure : bool)
  : Method str :=
  let text := markdown_text in
  text <- convert_unicode_chars text ;;
  text <- ret (convert_headings text) ;;
  text <- ret (convert_formatting text) ;;
  text <- ret (convert_lists text) ;;
  text <- ret (preserve_whitespace text) ;;
  text <- ret (handle_blank_lines text) ;;
  text <- ret (escape_latex_chars text) ;;
  text <- ret (if add_document_structure then add_latex_preamble text else text) ;;
  ret text.

(** The text returned by [MarkdownToLatexConverter().convert(...)] *)
Definition converted (markdown_text : str) (add_document_structure : bool) : str :=
  fst (convert markdown_text add_document_structure init).

(** ** The command line: [convert_file] and [main] *)
Module Cli.

(** A path as the caller writes it.  The file system and the paths are
    those of a POSIX system. *)
Definition path := str.

Inductive exn : Type :=
| FileNotFoundError (msg : str)
| OSError (msg : str)
| ValueError (msg : str)
| TypeError (msg : str).

(** [str(e)] *)
Definition message (e : exn) : str :=
  match e with
  | FileNotFoundError m | OSError m | ValueError m | TypeError m => m
  end.

(** *** [pathlib.Path] on POSIX (CPython 3.11) *)

(** A path object: the root ([/], [//] or none) and the components after
    it, without the empty ones and without [.]. *)
Record PosixPath : Type := { root : str; parts : list str }.

Definition slash : char := 47.

(** Exactly two leading slashes are kept, any other number is one. *)
Definition posix_root (p : path) : str :=
  if starts_with (lit "///") p then lit "/"
  else if starts_with (lit "//") p then lit "//"
  else if starts_with (lit "/") p then lit "/"
  else [].

(** [Path(p)] *)
Definition Path (p : path) : PosixPath :=
  {| root := posix_root p;
     parts := filter (fun x => negb (str_eqb x []) && negb (str_eqb x (lit ".")))
                (PyStr.split slash p) |}.

(** [str(p)], which is also what [open(p, ...)] and [print] use *)
Definition fspath (p : PosixPath) : path :=
  match root p ++ PyStr.join [slash] (parts p) with
  | [] => lit "."
  | s => s
  end.

(** [p.name] *)
Definition name (p : PosixPath) : str := last (parts p) [].

(** [name.rfind('.')] *)
Definition last_dot (name : str) : option nat :=
  let fix go (i : nat) (s : str) (found : option nat) : option nat :=
    match s with
    | [] => found
    | c :: s' => go (S i) s' (if N.eqb c 46 then Some i else found)
    end in
  go O name None.

(** [p.suffix]: the name from its last dot on, unless that dot is the first
    or the last character of the name *)
Definition suffix (p : PosixPath) : str :=
  let name := name p in
  match last_dot name with
  | Some i =>
      if Nat.ltb 0 i && Nat.ltb i (List.length name - 1) then skipn i name
      else []
  | None => []
  end.

(** [p.with_suffix(suffix)], for a suffix that [pathlib] accepts (the source
    passes ['.tex']) *)
Definition with_suffix (p : PosixPath) (new_suffix : str) : exn + PosixPath :=
  let name := name p in
  match name with
  | [] =>
      inl (ValueError (lit "PosixPath('" ++ fspath p ++ lit "') has an empty name"))
  | _ =>
      let old_suffix := suffix p in
      let name :=
        match old_suffix with
        | [] => name ++ new_suffix
        | _ => firstn (List.length name - List.length old_suffix) name
                 ++ new_suffix
        end in
      inr {| root := root p; parts := removelast (parts p) ++ [name] |}
  end.

(** *** The file system and the standard streams *)

(** What a path leads to: a regular file that the process may read and
    write, with its content [raw] decoded from UTF-8; no file, in a directory
    where the process may create one; no file, where none can be created
    (the directory is missing or closed to the process); something that
    [open] refuses in both modes (a directory, a file closed to the
    process). *)
Inductive node : Type :=
| TextFile (raw : str)
| Vacant
| NoEntry
| Unusable.

Inductive mode : Type := Reading | Writing.

(** A place in the file system.  Two spellings of a path, links included,
    lead to the same place. *)
Definition loc := N.

(** The file system: where each path leads, what is there, and the exception
    that a refused [open(p, mode)] raises. *)
Record file_system : Type :=
  { locate : path -> loc;
    node_at : loc -> node;
    error_at : path -> mode -> exn }.

Definition node_of (fs : file_system) (p : path) : node :=
  node_at fs (locate fs p).

(** [Path(p).exists()] *)
Definition present (fs : file_system) (p : path) : bool :=
  match node_of fs p with
  | TextFile _ | Unusable => true
  | Vacant | NoEntry => false
  end.

(** [open(p, 'w')] succeeds. *)
Definition writable (fs : file_system) (p : path) : bool :=
  match node_of fs p with
  | TextFile _ | Vacant => true
  | NoEntry | Unusable => false
  end.

(** The file system once [content] is the content of the file at [p] *)
Definition store (fs : file_system) (p : path) (content : str) : file_system :=
  {| locate := locate fs;
     node_at := fun l => if N.eqb l (locate fs p) then TextFile content
                         else node_at fs l;
     error_at := error_at fs |}.

(** Reading in text mode with universal newlines: [\r\n] and [\r] are read
    as [\n]. *)
Fixpoint universal_newlines (raw : str) : str :=
  match raw with
  | [] => []
  | c :: rest =>
      if N.eqb c cr then
        nl :: match rest with
              | d :: rest' =>
                  if N.eqb d nl then universal_newlines rest'
                  else universal_newlines rest
              | [] => []
              end
      else c :: universal_newlines rest
  end.

Record world : Type :=
  { files : file_system; stdout : list str; stderr : list str }.

(** A statement that may raise *)
Definition IO (A : Type) : Type := world -> (exn + A) * world.

Definition pure {A} (a : A) : IO A := fun w => (inr a, w).
Definition raise {A} (e : exn) : IO A := fun w => (inl e, w).
Definition and_then {A B} (m : IO A) (f : A -> IO B) : IO B :=
  fun w => match m w with
           | (inr a, w') => f a w'
           | (inl e, w') => (inl e, w')
           end.

Notation "x <~ m ;; f" := (and_then m (fun x => f))
  (at level 61, m at next level, right associativity).

(** [path.exists()] *)
Definition path_exists (p : path) : IO bool :=
  fun w => (inr (present (files w) p), w).

(** [open(p, 'r', encoding='utf-8')] and [f.read()] *)
Definition read_text (p : path) : IO str :=
  fun w => match node_of (files w) p with
           | TextFile raw => (inr (universal_newlines raw), w)
           | _ => (inl (error_at (files w) p Reading), w)
           end.

(** [open(p, 'w', encoding='utf-8')] and [f.write(content)]; on POSIX the
    line feeds are written as they are. *)
Definition write_text (p : path) (content : str) : IO unit :=
  fun w => if writable (files w) p
           then (inr tt,
                 {| files := store (files w) p content;
                    stdout := stdout w; stderr := stderr w |})
           else (inl (error_at (files w) p Writing), w).

Definition print (line : str) : IO unit :=
  fun w => (inr tt, {| files := files w; stdout := stdout w ++ [line];
                       stderr := stderr w |}).

Definition print_stderr (line : str) : IO unit :=
  fun w => (inr tt, {| files := files w; stdout := stdout w;
                       stderr := stderr w ++ [line] |}).

Definition lift {A} (r : exn + A) : IO A := fun w => (r, w).

(** [convert_file(self, input_path, output_path=None)] *)
Definition convert_file (input_path : path) (output_path : option path)
  : IO PosixPath :=
  let input_path := Path input_path in
  found <~ path_exists (fspath input_path) ;;
  if negb found then
    raise (FileNotFoundError
             (lit "Input file " ++ fspath input_path ++ lit " not found"))
  else
    output_path <~ match output_path with
                   | None => lift (with_suffix input_path (lit ".tex"))
                   | Some p => pure (Path p)
                   end ;;
    markdown_content <~ read_text (fspath input_path) ;;
    let latex_content := converted markdown_content true in
    _ <~ write_text (fspath output_path) latex_content ;;
    _ <~ print (lit "Converted " ++ fspath input_path ++ lit " to "
                  ++ fspath output_path) ;;
    pure output_path.

(** Binding the positional arguments of a call [converter.convert_file(...)]
    to the parameters [(input_path, output_path=None)]: a call with more
    arguments than parameters raises [TypeError] before the body runs. *)
Definition call_convert_file (positional : list (option str))
  : IO PosixPath :=
  match positional with
  | [Some input_path] => convert_file input_path None
  | [Some input_path; output_path] => convert_file input_path output_path
  | _ =>
      raise (TypeError
               (lit "MarkdownToLatexConverter.convert_file() takes from 2 to 3 positional arguments but "
                  ++ PyStr.str_of_N (N.of_nat (S (List.length positional)))
                  ++ lit " were given"))
  end.

(** The namespace that [parser.parse_args()] returns *)
Record Namespace : Type :=
  { input : str;
    output : option str;
    output_file : option str;
    template : option str;
    no_document : bool }.

Definition truthy (o : option str) : bool :=
  match o with
  | Some (_ :: _) => true
  | _ => false
  end.

(** [a or b] *)
Definition py_or (a b : option str) : option str := if truthy a then a else b.

(** The body of the [try] statement *)
Definition main_body (args : Namespace) (output_file : option str) : IO unit :=
  if no_document args then
    markdown_content <~ read_text (input args) ;;
    let latex_content := converted markdown_content false in
    if truthy output_file then
      let out := match output_file with Some p => p | None => [] end in
      _ <~ write_text out latex_content ;;
      print (lit "Converted " ++ input args ++ lit " to " ++ out)
    else
      print latex_content
  else
    _ <~ call_convert_file [Some (input args); output_file; template args] ;;
    pure tt.

(** [main()] on parsed arguments: the exit status and the world it leaves *)
Definition main (args : Namespace) (w : world) : Z * world :=
  let output_file := py_or (output args) (output_file args) in
  match main_body args output_file w with
  | (inr _, w') => (0%Z, w')
  | (inl e, w') =>
      (1%Z, snd (print_stderr (lit "Error: " ++ message e) w'))
  end.

End Cli.

(** ** Notions used to state the properties *)

(** The text that reaches the escaping pass *)
Definition before_escaping (text : str) : str :=
  handle_blank_lines
    (preserve_whitespace
       (convert_lists
          (convert_formatting
             (convert_headings (fst (convert_unicode_chars text init)))))).

(** The character before the cursor once [taken] has been read *)
Definition cursor_prev (prev : option char) (taken : str) : option char :=
  fold_left (fun _ c => Some c) taken prev.

(** A repetition of [p] can take no further character at [rest]. *)
Definition stops (p : char -> bool) (rest : str) : Prop :=
  match rest with
  | [] => True
  | c :: _ => p c = false
  end.

(** A character that keeps the column counter of [expandtabs] running *)
Definition same_line (c : char) : bool := negb (N.eqb c nl || N.eqb c cr).

(** What stands for a maximal run of [n] spaces: nothing for none, the space
    itself for one, a horizontal-space command of the given size otherwise. *)
Definition run_command (size : nat -> str) (n : nat) : str :=
  match n with
  | 0%nat => []
  | 1%nat => [space]
  | _ => lit "\hspace{" ++ size n ++ lit "em}"
  end.

(** Replacing every maximal run of spaces, scanning left to right with the
    length of the run being read. *)
Fixpoint collapse_runs (size : nat -> str) (pending : nat) (s : str) : str :=
  match s with
  | [] => run_command size pending
  | c :: s' =>
      if N.eqb c space then collapse_runs size (S pending) s'
      else run_command size pending ++ c :: collapse_runs size 0 s'
  end.

(** The size the spec words give a run of [n] spaces: the decimal number
    [0.3 * n], which has one digit after the point. *)
Definition exact_size (n : nat) : str :=
  PyStr.str_of_N (N.of_nat (Nat.div (3 * n) 10)) ++ lit "."
    ++ PyStr.str_of_N (N.of_nat (Nat.modulo (3 * n) 10)).

(** The whitespace pass as the spec words it, with exact sizes *)
Definition whitespace_with_exact_sizes (text : str) : Prop :=
  preserve_whitespace text
  = collapse_runs exact_size 0 (PyStr.expandtabs 4 text).

(** The item line that the list pass writes for a bullet line *)
Definition bullet_item (w t : str) : str :=
  PyStr.times (lit "  ") (Nat.div (List.length w) 2) ++ lit "\item " ++ t.




(** A world with a text file at [input], room for a new file at [output]
    and nothing at any other path; a refused [open] raises
    [FileNotFoundError]. *)
Definition two_paths (input : Cli.path) (raw : str) (output : Cli.path)
  : Cli.world :=
  {| Cli.files :=
       {| Cli.locate := fun p => if str_eqb p input then 1
                                 else if str_eqb p output then 2 else 0;
          Cli.node_at := fun l => if N.eqb l 1 then Cli.TextFile raw
                                  else if N.eqb l 2 then Cli.Vacant
                                  else Cli.NoEntry;
          Cli.error_at := fun p _ =>
            Cli.FileNotFoundError
              (lit "[Errno 2] No such file or directory: '" ++ p ++ lit "'") |};
     Cli.stdout := []; Cli.stderr := [] |}.

(** A backslash, and a number sign *)
Definition backslash : char := 92%N.
Definition hash : char := 35%N.

(** Every backslash of [s] begins [\textbackslash{}]. *)
Fixpoint all_escaped (s : str) : bool :=
  match s with
  | [] => true
  | c :: s' =>
      (if N.eqb c backslash then starts_with (lit "textbackslash{}") s'
       else true)
      && all_escaped s'
  end.

(** [a] and [b] agree as far as both go. *)
Fixpoint compatible (a b : str) : bool :=
  match a, b with
  | x :: a', y :: b' => N.eqb x y && compatible a' b'
  | _, _ => true
  end.

(** A backslash followed by something other than the beginning of
    [textbackslash{}] *)
Definition is_command (cmd : str) : bool :=
  match cmd with
  | c :: name => N.eqb c backslash && negb (compatible name (lit "textbackslash{}"))
  | [] => false
  end.

(** The opening of the section command of depth [k] *)
Definition section_command (k : nat) : string :=
  nth (pred k)
    ["\section{"; "\subsection{"; "\subsubsection{"; "\paragraph{";
     "\subparagraph{"]%string EmptyString.

(** What the passes before the escaping pass emit: the section and emphasis
    commands, the list markers, the space commands and the commands of the
    symbol table. *)
Definition emitted_commands : list str :=
  map lit
    ["\section{"; "\subsection{"; "\subsubsection{"; "\paragraph{";
     "\subparagraph{"; "\textbf{"; "\textit{"; "\underline{";
     "\textsuperscript{"; "\textsubscript{"; "\begin{itemize}";
     "\end{itemize}"; "\begin{enumerate}"; "\end{enumerate}"; "\item ";
     "\hspace{"; "\vspace{\baselineskip}"]%string
    ++ map snd (unicode_map init).

(** What the symbol pass puts for one character: the wrapped command of its
    entry in the table, or the character itself. *)
Definition symbol_replacement (table : list (char * str)) (c : char) : str :=
  match find (fun e : char * str => N.eqb (fst e) c) table with
  | Some e => wrap_math (snd e)
  | None => [c]
  end.

Definition is_key (table : list (char * str)) (c : char) : bool :=
  existsb (fun e : char * str => N.eqb (fst e) c) table.

(** No replacement holds a character of the table. *)
Definition clean (table : list (char * str)) : bool :=
  forallb (fun e => forallb (fun c => negb (is_key table c)) (wrap_math (snd e)))
    table.

(** ** Notions used to state the further properties *)

(** What the escaping pass writes for one character *)
Definition escape_char (c : char) : str :=
  if N.eqb c 92 then lit "\textbackslash{}"
  else if existsb (N.eqb c) [38; 37; 35; 123; 125]%N
       then lit "\textbackslash{}" ++ [c]
       else [c].

(** A pattern that can only match at a character passing [first] *)
Definition needs_first (r : re) (first : char -> bool) : Prop :=
  forall prev c s, first c = false -> match_at r prev (c :: s) = None.

(** No character of [s] passes [first]. *)
Definition avoids (first : char -> bool) (s : str) : bool :=
  forallb (fun c => negb (first c)) s.

(** The number of line feeds of a text *)
Definition newlines (text : str) : nat := List.length (filter (N.eqb nl) text).

(** A text of one line *)
Definition nl_free (s : str) : bool := avoids (N.eqb nl) s.

(** The end of the blank-lines pattern: [\n+], and [\n\s*\n+] *)
Definition k2 : option char -> str -> outcome :=
  fun pv s => rep (chr_is nl) true (fun pv' s' => done pv' s' []) 1 pv s.

Definition k1 : option char -> str -> outcome :=
  fun pv s =>
    run (seqs [Chr (chr_is nl); Rep Unicode.isspace 0 true;
               Rep (chr_is nl) 1 true]) done pv s [].

(** A line that is no list line *)
Definition plain_line (line : str) : bool :=
  match re_match bullet_re line, re_match numbered_re line with
  | None, None => true
  | _, _ => false
  end.

(** The first character after the leading whitespace is no bullet: the
    bullet pattern does not match. *)
Definition no_bullet_first (x : str) : Prop :=
  match x with
  | [] => True
  | d :: _ => bullet_char d = false /\ Unicode.isspace d = false
  end.

Definition full_stop : char := 46%N.

(** A literal pattern, character by character *)
Definition chars_re (s : str) : re := seqs (map (fun c => Chr (chr_is c)) s).

(** The characters that the emphasis patterns start with: [*], [_], [<],
    [^], [~] *)
Definition marker (c : char) : bool := existsb (N.eqb c) [42; 95; 60; 94; 126]%N.

(** No character of [s] is a symbol of the table. *)
Definition symbol_free (s : str) : bool :=
  forallb (fun c => negb (is_key (unicode_map init) c)) s.

(** No stretch of whitespace holds three line feeds: [seen] counts the line
    feeds since the last character that is not whitespace. *)
Fixpoint quiet (seen : nat) (s : str) : bool :=
  match s with
  | [] => true
  | c :: s' =>
      if N.eqb c nl then Nat.ltb seen 2 && quiet (S seen) s'
      else if Unicode.isspace c then quiet seen s'
      else quiet 0 s'
  end.

(** The arguments of an invocation with [--no-document] *)
Definition no_document_args (i : str) (o o_flag tpl : option str)
  : Cli.Namespace :=
  {| Cli.input := i; Cli.output := o; Cli.output_file := o_flag;
     Cli.template := tpl; Cli.no_document := true |}.

(** A space or a tab *)
Definition blank (c : char) : bool := N.eqb c space || N.eqb c tab.

(** No two spaces of [s] are adjacent. *)
Fixpoint no_double_space (s : str) : bool :=
  match s with
  | c :: (d :: _) as s' => negb (N.eqb c space && N.eqb d space) && no_double_space s'
  | _ => true
  end.

(** The characters that some pass reacts to: the symbols of the table, the
    heading, emphasis and bullet characters, the decimal digits, the tab and
    the characters that the escaping pass rewrites. *)
Definition special (c : char) : bool :=
  is_key (unicode_map init) c
  || existsb (N.eqb c) [35; 42; 95; 60; 94; 126; 43; 45; 9; 38; 37; 123; 125; 92]%N
  || Unicode.isdecimal c.

(** Prose: no special character, no two adjacent spaces, no stretch of
    whitespace with three line feeds. *)
Definition prose (text : str) : bool :=
  avoids special text && no_double_space text && quiet 0 text.

(** The text [pre] ends a line: it is empty or ends with a line feed. *)
Definition ends_line (pre : str) : bool :=
  match cursor_prev None pre with
  | None => true
  | Some c => N.eqb c nl
  end.

(** * Properties *)

Local Close Scope N_scope.

(** ** The matcher *)

Section RepFacts.
Variable p : char -> bool.
Variable k : option char -> str -> outcome.

(** A successful repetition took some characters that pass the test, at
    least [min] of them, and the continuation succeeded after them. *)
Lemma rep_sound greedy s : forall min prev r,
  rep p greedy k min prev s = Some r ->
  exists taken rest,
    s = taken ++ rest /\ forallb p taken = true
    /\ min <= List.length taken
    /\ k (cursor_prev prev taken) rest = Some r.
Proof.
  induction s as [|c s' IH]; intros min prev r H.
  - destruct min, greedy; simpl in H; try discriminate;
      exists [], []; repeat split; auto.
    unfold cursor_prev; simpl. destruct (k prev []); congruence.
  - destruct min as [|m].
    + destruct greedy; simpl in H.
      * destruct (p c) eqn:Pc.
        -- destruct (rep p true k 0 (Some c) s') as [r'|] eqn:E.
           ++ inversion H; subst r'.
              destruct (IH _ _ _ E) as (t & rest & -> & Ht & _ & Hk).
              exists (c :: t), rest. simpl. rewrite Pc, Ht.
              repeat split; auto. lia.
           ++ exists [], (c :: s'). repeat split; auto.
        -- exists [], (c :: s'). repeat split; auto.
      * destruct (k prev (c :: s')) as [r'|] eqn:Ek.
        -- inversion H; subst r'. exists [], (c :: s'). repeat split; auto.
        -- destruct (p c) eqn:Pc; try discriminate.
           destruct (IH _ _ _ H) as (t & rest & -> & Ht & _ & Hk).
           exists (c :: t), rest. simpl. rewrite Pc, Ht.
           repeat split; auto. lia.
    + simpl in H. destruct (p c) eqn:Pc; try discriminate.
      destruct (IH _ _ _ H) as (t & rest & -> & Ht & Hm & Hk).
      exists (c :: t), rest. simpl. rewrite Pc, Ht.
      repeat split; auto. lia.
Qed.

(** A greedy repetition whose continuation succeeds after the longest run
    returns that outcome. *)
Lemma rep_greedy_max taken : forall rest min prev r,
  forallb p taken = true -> stops p rest ->
  min <= List.length taken ->
  k (cursor_prev prev taken) rest = Some r ->
  rep p true k min prev (taken ++ rest) = Some r.
Proof.
  induction taken as [|c t IH]; intros rest min prev r Ht Hs Hm Hk.
  - simpl in Hm. assert (min = 0) by lia. subst min.
    destruct rest as [|d rest]; simpl.
    + exact Hk.
    + simpl in Hs. rewrite Hs. exact Hk.
  - simpl in Ht. apply andb_true_iff in Ht as [Pc Ht].
    destruct min as [|m]; simpl; rewrite Pc.
    + rewrite (IH rest 0 (Some c) r); auto. lia.
    + apply IH; auto. simpl in Hm. lia.
Qed.

(** Fewer than [min] characters can be taken. *)
Lemma rep_too_short greedy taken : forall rest min prev,
  stops p rest -> List.length taken < min ->
  rep p greedy k min prev (taken ++ rest) = None.
Proof.
  induction taken as [|c t IH]; intros rest min prev Hs Hm.
  - destruct min as [|m]; [simpl in Hm; lia|].
    destruct rest as [|d rest]; simpl; auto.
    simpl in Hs. rewrite Hs. reflexivity.
  - destruct min as [|m]; [simpl in Hm; lia|].
    simpl. destruct (p c); auto. apply IH; auto. simpl in Hm. lia.
Qed.

End RepFacts.

Lemma firstn_app_exact (a b : str) :
  firstn (List.length (a ++ b) - List.length b) (a ++ b) = a.
Proof.
  rewrite length_app, Nat.add_sub.
  rewrite firstn_app, Nat.sub_diag, firstn_all. simpl. apply app_nil_r.
Qed.

Lemma nonempty_length (t : str) : t <> [] -> 1 <= List.length t.
Proof. destruct t; [congruence|simpl; lia]. Qed.

Lemma chr_is_true d c : chr_is d c = true -> c = d.
Proof. unfold chr_is. intros H. apply N.eqb_eq in H. congruence. Qed.

Lemma run_seq r1 r2 k prev s caps :
  run (Seq r1 r2) k prev s caps = run r1 (run r2 k) prev s caps.
Proof. reflexivity. Qed.

Lemma run_chr p (k : cont) prev c s caps :
  p c = true -> run (Chr p) k prev (c :: s) caps = k (Some c) s caps.
Proof. intros H. cbn [run]. rewrite H. reflexivity. Qed.

Lemma run_group_greedy p min (k : cont) prev taken rest caps r :
  forallb p taken = true -> stops p rest ->
  min <= List.length taken ->
  k (cursor_prev prev taken) rest (caps ++ [taken]) = Some r ->
  run (Grp (Rep p min true)) k prev (taken ++ rest) caps = Some r.
Proof.
  intros Ht Hs Hm Hk. cbn [run].
  apply rep_greedy_max; auto.
  rewrite firstn_app_exact. exact Hk.
Qed.

Lemma run_group_greedy_end p min (k : cont) prev t caps r :
  forallb p t = true -> min <= List.length t ->
  k (cursor_prev prev t) [] (caps ++ [t]) = Some r ->
  run (Grp (Rep p min true)) k prev t caps = Some r.
Proof.
  intros Ht Hm Hk.
  pose proof (@run_group_greedy p min k prev t [] caps r Ht I Hm Hk) as H.
  rewrite app_nil_r in H. exact H.
Qed.

Lemma not_behind_inv d r k prev s caps out :
  run (Seq (NotBehind d) r) k prev s caps = Some out ->
  prev <> Some d /\ run r k prev s caps = Some out.
Proof.
  simpl. destruct prev as [c|].
  - destruct (N.eqb_spec d c); [discriminate|].
    intros H; split; [congruence|exact H].
  - intros H; split; [discriminate|exact H].
Qed.

(** [re.sub]: one step at a cursor outside a match, and the characters that
    a match has consumed. *)
Lemma sub_loop_cons r f prev c s :
  sub_loop r f 0 prev (c :: s)
  = match match_at r prev (c :: s) with
    | Some (caps, n) =>
        f (firstn n (c :: s)) caps ++ sub_loop r f (pred n) (Some c) s
    | None => c :: sub_loop r f 0 (Some c) s
    end.
Proof. reflexivity. Qed.

Lemma sub_loop_skip r f l : forall rest prev,
  sub_loop r f (List.length l) prev (l ++ rest)
  = sub_loop r f 0 (cursor_prev prev l) rest.
Proof.
  induction l as [|c l IH]; intros rest prev.
  - reflexivity.
  - simpl. apply IH.
Qed.

(** ** Substrings and lines *)

Lemma starts_with_app n r : starts_with n (n ++ r) = true.
Proof. induction n as [|c n IH]; simpl; auto. rewrite N.eqb_refl. exact IH. Qed.

Lemma contains_unfold n s :
  contains n s
  = starts_with n s || match s with [] => false | _ :: s' => contains n s' end.
Proof. destruct s; reflexivity. Qed.


Lemma join_cons sep l ls :
  ls <> [] -> PyStr.join sep (l :: ls) = l ++ sep ++ PyStr.join sep ls.
Proof. destruct ls; [congruence|reflexivity]. Qed.


Lemma split_no_sep sep s : forall l,
  In l (PyStr.split sep s) -> forallb (chr_isnt sep) l = true.
Proof.
  induction s as [|c s IH]; intros l H.
  - simpl in H. destruct H as [<-|[]]. reflexivity.
  - simpl in H. destruct (N.eqb_spec c sep) as [->|Hne].
    + destruct H as [<-|H]; [reflexivity|auto].
    + destruct (PyStr.split sep s) as [|l0 ls] eqn:E.
      * destruct H as [<-|[]]. simpl. unfold chr_isnt.
        destruct (N.eqb_spec sep c); [congruence|reflexivity].
      * destruct H as [<-|H].
        -- simpl. unfold chr_isnt at 1.
           destruct (N.eqb_spec sep c); [congruence|].
           simpl. apply IH. left. reflexivity.
        -- apply IH. right. exact H.
Qed.

(** ** The document wrapper and the object state *)

Lemma convert_self text flag self : snd (convert text flag self) = self.
Proof. reflexivity. Qed.

(** C10: with the wrapper flag set, [convert] returns the fixed preamble, then
    what it returns with the flag unset on the same text, then the fixed
    postamble. *)
Theorem convert_document_structure :
  forall (text : str) (self : MarkdownToLatexConverter),
    fst (convert text true self)
    = preamble ++ fst (convert text false self) ++ postamble.
Proof.
  intros text self. unfold convert, bind, ret. cbn [fst snd].
  unfold add_latex_preamble.
  destruct (convert_unicode_chars text self) as [t self'] eqn:E.
  reflexivity.
Qed.

(** C9: no method writes [self.unicode_map], so a call of [convert] hands the
    converter back as it received it, and a second call on that converter
    with the same text and flag returns the same string. *)
Theorem convert_deterministic_and_stateless :
  forall (self : MarkdownToLatexConverter) (text : str) (flag : bool),
    let first := convert text flag self in
    let second := convert text flag (snd first) in
    snd first = self
    /\ unicode_map (snd second) = unicode_map self
    /\ fst second = fst first
    /\ (forall t, snd (convert_unicode_chars t self) = self).
Proof.
  intros self text flag first second. subst first second.
  rewrite !convert_self. repeat split.
Qed.

(** ** The command line *)

(** C1: [main] passes three arguments to [convert_file], which takes two at
    most.  Whatever the files are, an invocation without [--no-document]
    prints an error and exits with status 1, and writes no file. *)
Theorem main_with_document_exits_1 :
  forall (i : str) (o o_flag tpl : option str) (w : Cli.world),
    Cli.main {| Cli.input := i; Cli.output := o; Cli.output_file := o_flag;
                Cli.template := tpl; Cli.no_document := false |} w
    = (1%Z,
       {| Cli.files := Cli.files w;
          Cli.stdout := Cli.stdout w;
          Cli.stderr :=
            Cli.stderr w
            ++ [lit "Error: MarkdownToLatexConverter.convert_file() takes from 2 to 3 positional arguments but 4 were given"] |}).
Proof. intros. reflexivity. Qed.

(** For comparison: called with its two parameters on an existing text file,
    [convert_file] does write the wrapped conversion to the default path. *)
Example convert_file_two_arguments :
  let w := two_paths (lit "notes/a.md") (lit "hi") (lit "notes/a.tex") in
  let r := Cli.call_convert_file [Some (lit "notes/a.md"); None] w in
  fst r = inr (Cli.Path (lit "notes/a.tex"))
  /\ Cli.node_of (Cli.files (snd r)) (lit "notes/a.tex")
     = Cli.TextFile (converted (lit "hi") true)
  /\ Cli.stdout (snd r) = [lit "Converted notes/a.md to notes/a.tex"].
Proof. vm_compute. repeat split. Qed.

(** ** The escaping pass and the commands of the earlier passes *)

Lemma converted_unwrapped text :
  converted text false = escape_latex_chars (before_escaping text).
Proof. reflexivity. Qed.

Lemma escape_latex_chars_unfold text :
  escape_latex_chars text
  = PyStr.replace 92%N (lit "\textbackslash{}")
      (PyStr.replace 125%N (lit "\}")
         (PyStr.replace 123%N (lit "\{")
            (PyStr.replace 35%N (lit "\#")
               (PyStr.replace 37%N (lit "\%")
                  (PyStr.replace 38%N (lit "\&") text))))).
Proof. reflexivity. Qed.

Lemma replace_backslash_escaped t :
  all_escaped (PyStr.replace 92%N (lit "\textbackslash{}") t) = true.
Proof.
  unfold PyStr.replace.
  induction t as [|c t IH]; [reflexivity|].
  cbn [flat_map]. destruct (N.eqb_spec 92%N c) as [<-|Hc].
  - change (lit "\textbackslash{}") with (backslash :: lit "textbackslash{}").
    cbn [app all_escaped]. rewrite N.eqb_refl, starts_with_app.
    simpl. exact IH.
  - cbn [app all_escaped]. rewrite IH.
    destruct (N.eqb_spec c backslash) as [->|_];
      [exfalso; apply Hc; reflexivity|reflexivity].
Qed.

Lemma starts_with_compatible s : forall a b,
  starts_with a s = true -> starts_with b s = true -> compatible a b = true.
Proof.
  induction s as [|c s IH]; intros [|x a] [|y b] Ha Hb; simpl in *;
    try reflexivity; try discriminate.
  apply andb_true_iff in Ha as [Hx Ha]. apply andb_true_iff in Hb as [Hy Hb].
  apply N.eqb_eq in Hx, Hy. subst. rewrite N.eqb_refl. simpl. eauto.
Qed.

Lemma escaped_has_no_command s cmd :
  all_escaped s = true -> is_command cmd = true -> contains cmd s = false.
Proof.
  intros Hs Hc. destruct cmd as [|b name]; [discriminate|].
  cbn [is_command] in Hc. apply andb_true_iff in Hc as [Hb Hc].
  apply N.eqb_eq in Hb. subst b. apply negb_true_iff in Hc.
  induction s as [|c s IH].
  - reflexivity.
  - cbn [all_escaped] in Hs. apply andb_true_iff in Hs as [Hhd Hs].
    rewrite contains_unfold, (IH Hs), orb_false_r.
    cbn [starts_with]. destruct (N.eqb_spec backslash c) as [<-|Hne]; auto.
    rewrite N.eqb_refl in Hhd. cbn [andb].
    destruct (starts_with name s) eqn:E; auto.
    rewrite (starts_with_compatible s _ _ E Hhd) in Hc. discriminate.
Qed.

(** No command survives [convert]. *)
Lemma converted_has_no_command text cmd :
  is_command cmd = true -> contains cmd (converted text false) = false.
Proof.
  intros Hc. rewrite converted_unwrapped, escape_latex_chars_unfold.
  apply escaped_has_no_command; [apply replace_backslash_escaped|exact Hc].
Qed.

Lemma emitted_commands_are_commands :
  forallb is_command emitted_commands = true.
Proof. vm_compute. reflexivity. Qed.

(** C2: for every input, none of the commands that the earlier passes emit
    is in the output of [convert]: the escaping pass rewrites every backslash
    to [\textbackslash{}] and puts one before every brace.  On [# T] the
    earlier passes emit [\section{T}], and the output is as shown. *)
Theorem escaping_rewrites_emitted_commands :
  (forall text : str,
     forallb (fun cmd => negb (contains cmd (converted text false)))
       emitted_commands = true)
  /\ before_escaping (lit "# T") = lit "\section{T}"
  /\ converted (lit "# T") false
     = lit "\textbackslash{}section\textbackslash{}{T\textbackslash{}}"
  /\ escape_latex_chars (lit "\textbf{a} \item \begin{itemize} \hspace{0.6em}")
     = lit "\textbackslash{}textbf\textbackslash{}{a\textbackslash{}} \textbackslash{}item \textbackslash{}begin\textbackslash{}{itemize\textbackslash{}} \textbackslash{}hspace\textbackslash{}{0.6em\textbackslash{}}".
Proof.
  split; [|vm_compute; repeat split].
  intros text. apply forallb_forall. intros cmd Hin.
  rewrite converted_has_no_command; [reflexivity|].
  pose proof emitted_commands_are_commands as H.
  rewrite forallb_forall in H. exact (H cmd Hin).
Qed.

(** ** The symbol pass *)

Lemma flat_map_single (s : str) : flat_map (fun c => [c]) s = s.
Proof. induction s as [|c s IH]; simpl; congruence. Qed.

Lemma flat_map_compose (f g : char -> str) (s : str) :
  flat_map g (flat_map f s) = flat_map (fun c => flat_map g (f c)) s.
Proof.
  induction s as [|c s IH]; simpl; auto.
  rewrite flat_map_app, IH. reflexivity.
Qed.

Lemma symbol_replacement_no_key table w :
  forallb (fun c => negb (is_key table c)) w = true ->
  flat_map (symbol_replacement table) w = w.
Proof.
  induction w as [|c w IH]; intros H; simpl; auto.
  cbn [forallb] in H. apply andb_true_iff in H as [Hc Hw].
  rewrite (IH Hw). unfold symbol_replacement.
  destruct (find (fun e : char * str => N.eqb (fst e) c) table) as [e|] eqn:E;
    [|reflexivity].
  apply find_some in E as [Hin He].
  apply negb_true_iff in Hc. unfold is_key in Hc.
  assert (Hex : existsb (fun e : char * str => N.eqb (fst e) c) table = true).
  { apply existsb_exists. exists e. split; assumption. }
  congruence.
Qed.

Lemma clean_tail e table : clean (e :: table) = true ->
  clean table = true
  /\ forallb (fun c => negb (is_key table c)) (wrap_math (snd e)) = true.
Proof.
  unfold clean. cbn [forallb]. intros H.
  apply andb_true_iff in H as [He Ht].
  assert (Hweak : forall w,
             forallb (fun c => negb (is_key (e :: table) c)) w = true ->
             forallb (fun c => negb (is_key table c)) w = true).
  { intros w Hw. rewrite forallb_forall in *. intros c Hc.
    specialize (Hw c Hc). unfold is_key in *. cbn [existsb] in Hw.
    apply negb_true_iff in Hw. apply orb_false_iff in Hw as [_ Hw].
    rewrite Hw. reflexivity. }
  split; [|apply Hweak; exact He].
  rewrite forallb_forall in *. intros x Hx. apply Hweak. apply Ht. exact Hx.
Qed.

(** The loop of [convert_unicode_chars] over a clean table replaces every
    character of the table, wherever it stands, by its wrapped command. *)
Lemma symbol_loop table : forall text,
  clean table = true ->
  fold_left (fun text e => PyStr.replace (fst e) (wrap_math (snd e)) text)
    table text
  = flat_map (symbol_replacement table) text.
Proof.
  induction table as [|e table IH]; intros text Hc.
  - simpl. symmetry. apply flat_map_single.
  - apply clean_tail in Hc as [Ht He]. cbn [fold_left].
    rewrite (IH _ Ht). unfold PyStr.replace. rewrite flat_map_compose.
    apply flat_map_ext. intros c. unfold symbol_replacement at 2.
    cbn [find]. destruct (N.eqb (fst e) c).
    + apply symbol_replacement_no_key. exact He.
    + simpl. apply app_nil_r.
Qed.

(** C3: the symbol pass replaces every occurrence of every symbol of the
    table by its command wrapped in math delimiters, but the full conversion
    of a one-symbol text then escapes the command: for no symbol of the table
    is the result the wrapped command. *)
Theorem symbol_alone_is_escaped :
  (forall text : str,
     fst (convert_unicode_chars text init)
     = flat_map (symbol_replacement (unicode_map init)) text)
  /\ converted [8469%N] false
     = lit "$\textbackslash{}mathbb\textbackslash{}{N\textbackslash{}}$"
  /\ forallb
       (fun e =>
          str_eqb (fst (convert_unicode_chars [fst e] init)) (wrap_math (snd e))
          && str_eqb (converted [fst e] false)
               (escape_latex_chars (wrap_math (snd e)))
          && negb (str_eqb (converted [fst e] false) (wrap_math (snd e))))
       (unicode_map init) = true.
Proof.
  split; [|vm_compute; split; reflexivity].
  intros text. unfold convert_unicode_chars, bind, ret, get_unicode_map.
  cbn [fst]. apply symbol_loop. vm_compute. reflexivity.
Qed.

(** ** Headings *)

(** After a character that is no line feed, no heading pattern matches. *)
Lemma heading_needs_line_start h c s :
  N.eqb c nl = false -> match_at (heading_re h) (Some c) s = None.
Proof.
  intros Hc. unfold match_at, heading_re, seqs. cbn [fold_right].
  rewrite run_seq. cbn [run]. rewrite Hc. reflexivity.
Qed.

Lemma sub_heading_inside h f s : forall c,
  N.eqb c nl = false -> forallb dot s = true ->
  sub_loop (heading_re h) f 0 (Some c) s = s.
Proof.
  induction s as [|d s IH]; intros c Hc Hs.
  - reflexivity.
  - cbn [forallb] in Hs. apply andb_true_iff in Hs as [Hd Hs].
    rewrite sub_loop_cons, heading_needs_line_start by exact Hc.
    f_equal. apply IH; auto.
    unfold dot, chr_isnt in Hd. apply negb_true_iff in Hd.
    rewrite N.eqb_sym. exact Hd.
Qed.

(** On a text of one line, a heading pattern that does not match at the
    start changes nothing. *)
Lemma sub_heading_nomatch h f text :
  forallb dot text = true ->
  match_at (heading_re h) None text = None ->
  sub (heading_re h) f text = text.
Proof.
  intros Hs Hm. unfold sub. destruct text as [|c s]; [reflexivity|].
  rewrite sub_loop_cons, Hm. f_equal.
  cbn [forallb] in Hs. apply andb_true_iff in Hs as [Hd Hs].
  apply sub_heading_inside; auto.
  unfold dot, chr_isnt in Hd. apply negb_true_iff in Hd.
  rewrite N.eqb_sym. exact Hd.
Qed.

Lemma sub_whole_match r f c s caps :
  match_at r None (c :: s) = Some (caps, S (List.length s)) ->
  sub r f (c :: s) = f (c :: s) caps.
Proof.
  intros Hm. unfold sub. rewrite sub_loop_cons, Hm.
  cbn [pred firstn]. rewrite firstn_all.
  pose proof (sub_loop_skip r f s [] (Some c)) as H.
  rewrite app_nil_r in H. rewrite H. cbn [sub_loop]. apply app_nil_r.
Qed.

(** A heading pattern on its own line: the group is the heading text. *)
Lemma heading_tail prev T :
  T <> [] -> forallb dot T = true ->
  run (seqs [Chr (chr_is space); Grp (Rep dot 1 true); EolM]) done
      prev (space :: T) [] = Some ([T], []).
Proof.
  intros Hne Hdot. unfold seqs. cbn [fold_right].
  rewrite run_seq, run_chr by reflexivity.
  rewrite run_seq. apply run_group_greedy_end; auto.
  apply nonempty_length; auto.
Qed.

Lemma heading_match_at h T s :
  T <> [] -> forallb dot T = true ->
  run (heading_re h) done None (hash :: s) []
  = run (seqs [Chr (chr_is space); Grp (Rep dot 1 true); EolM]) done
      (Some hash) (space :: T) [] ->
  match_at (heading_re h) None (hash :: s) = Some ([T], S (List.length s)).
Proof.
  intros Hne Hdot E. unfold match_at. rewrite E, heading_tail by auto.
  cbn [List.length]. rewrite Nat.sub_0_r. reflexivity.
Qed.

Ltac innermost_sub tac :=
  match goal with
  | |- context [sub (heading_re ?h) ?f ?x] =>
      lazymatch x with
      | context [sub] => fail
      | _ => tac h f x
      end
  end.

Ltac heading_nomatch Hdot :=
  innermost_sub ltac:(fun h f x =>
    rewrite (@sub_heading_nomatch h f x);
    [ | cbn [forallb]; rewrite ?forallb_app, ?Hdot; reflexivity
      | reflexivity ]).

Ltac heading_match T Hne Hdot :=
  innermost_sub ltac:(fun h f x =>
    match x with
    | ?c :: ?s =>
        rewrite (@sub_whole_match (heading_re h) f c s [T]);
        [ unfold template, group; cbn [pred nth]
        | apply heading_match_at; [exact Hne|exact Hdot|reflexivity] ]
    end).

Lemma convert_headings_line k T :
  1 <= k <= 5 -> T <> [] -> forallb dot T = true ->
  convert_headings (repeat hash k ++ space :: T)
  = lit (section_command k) ++ T ++ lit "}".
Proof.
  intros Hk Hne Hdot.
  assert (Hcases : k = 1 \/ k = 2 \/ k = 3 \/ k = 4 \/ k = 5) by lia.
  unfold convert_headings.
  destruct Hcases as [->|[->|[->|[->| ->]]]];
    cbn [repeat app section_command pred nth];
    repeat first [heading_match T Hne Hdot | heading_nomatch Hdot];
    reflexivity.
Qed.

(** C7: for every depth [k] from 1 to 5 and every non-empty heading text
    [T], the heading pass turns the line of [k] number signs, a space and [T]
    into the section command of depth [k] holding [T]; but [convert] then
    escapes it, and its output does not hold that command.  The five depths
    on the text [T] are shown. *)
Theorem heading_commands_are_escaped :
  (forall (k : nat) (T : str),
     1 <= k <= 5 -> T <> [] -> forallb dot T = true ->
     convert_headings (repeat hash k ++ space :: T)
     = lit (section_command k) ++ T ++ lit "}"
     /\ contains (lit (section_command k))
          (converted (repeat hash k ++ space :: T) false) = false)
  /\ map (fun l => converted (lit l) false)
       ["# T"; "## T"; "### T"; "#### T"; "##### T"]%string
     = map lit
         ["\textbackslash{}section\textbackslash{}{T\textbackslash{}}";
          "\textbackslash{}subsection\textbackslash{}{T\textbackslash{}}";
          "\textbackslash{}subsubsection\textbackslash{}{T\textbackslash{}}";
          "\textbackslash{}paragraph\textbackslash{}{T\textbackslash{}}";
          "\textbackslash{}subparagraph\textbackslash{}{T\textbackslash{}}"]%string.
Proof.
  split; [|vm_compute; reflexivity].
  intros k T Hk Hne Hdot. split.
  - apply convert_headings_line; assumption.
  - apply converted_has_no_command.
    assert (Hcases : k = 1 \/ k = 2 \/ k = 3 \/ k = 4 \/ k = 5) by lia.
    destruct Hcases as [->|[->|[->|[->| ->]]]]; reflexivity.
Qed.

Lemma heading_commands_are_escaped_witness :
  convert_headings (repeat hash 2 ++ space :: lit "Intro")
  = lit (section_command 2) ++ lit "Intro" ++ lit "}"
  /\ contains (lit (section_command 2))
       (converted (repeat hash 2 ++ space :: lit "Intro") false) = false.
Proof.
  apply (proj1 heading_commands_are_escaped 2 (lit "Intro")).
  - lia.
  - discriminate.
  - reflexivity.
Defined.

(** ** Emphasis *)

(** C6: on [**a** *b*] the bold substitution runs first and leaves [*b*] to
    the italic one.  Every match of an italic pattern has this shape: the
    opening delimiter is not preceded by the delimiter, the span between the
    delimiters is not empty and holds no delimiter, and the closing delimiter
    is not followed by one; so no delimiter of the match touches another. *)
Theorem bold_before_italic :
  sub (delimited_re "**" "**") (template "\textbf{" "}") (lit "**a** *b*")
  = lit "\textbf{a} *b*"
  /\ convert_formatting (lit "**a** *b*") = lit "\textbf{a} \textit{b}"
  /\ forall (d : char) (prev : option char) (s : str) (caps : list str) (n : nat),
       match_at (italic_re d) prev s = Some (caps, n) ->
       prev <> Some d
       /\ exists body rest,
            s = d :: body ++ d :: rest
            /\ body <> []
            /\ forallb (chr_isnt d) body = true
            /\ hd_error rest <> Some d
            /\ caps = [body]
            /\ n = S (S (List.length body)).
Proof.
  split; [vm_compute; reflexivity|].
  split; [vm_compute; reflexivity|].
  intros d prev s caps n.
  unfold match_at, italic_re, seqs. cbn [fold_right].
  destruct (run _ done prev s []) as [[caps' rest']|] eqn:E; [|discriminate].
  intros H. inversion H; subst caps' n; clear H.
  apply not_behind_inv in E as [Hprev E]. split; [exact Hprev|].
  simpl in E. destruct s as [|c s1]; [discriminate|].
  destruct (chr_is d c) eqn:Hc; [|discriminate].
  apply chr_is_true in Hc. subst c.
  apply rep_sound in E as (body & tl & -> & Hbody & Hlen & E).
  destruct tl as [|c tl]; [discriminate|].
  destruct (chr_is d c) eqn:Hc; [|discriminate].
  apply chr_is_true in Hc. subst c.
  rewrite firstn_app_exact in E.
  exists body, tl.
  assert (Hout : hd_error tl <> Some d /\ caps = [body] /\ rest' = tl).
  { destruct tl as [|e tl'].
    - inversion E. repeat split. discriminate.
    - destruct (N.eqb_spec d e); [discriminate|].
      inversion E. repeat split. simpl. congruence. }
  destruct Hout as (Hhd & -> & ->).
  repeat split; auto.
  - intros Hb. subst body. simpl in Hlen. lia.
  - cbn [List.length]. rewrite length_app. cbn [List.length]. lia.
Qed.

Lemma bold_before_italic_witness :
  Some space <> Some star
  /\ exists body rest,
       lit "*b*" = star :: body ++ star :: rest
       /\ body <> []
       /\ forallb (chr_isnt star) body = true
       /\ hd_error rest <> Some star
       /\ [lit "b"] = [body]
       /\ 3 = S (S (List.length body)).
Proof.
  apply (proj2 (proj2 bold_before_italic) star (Some space) (lit "*b*")
           [lit "b"] 3).
  reflexivity.
Defined.

(** ** The list pass *)

Ltac list_cases st :=
  destruct st as [? [|] [|]];
  unfold result_append, set_itemize, set_enumerate;
  cbn [result in_itemize in_enumerate negb app] in *.

(** C4: a numbered line met while a bullet block is open appends the opening
    line of the numbered block first and the closing line of the bullet block
    after it, and a bullet line met while a numbered block is open does the
    same with the kinds exchanged: the block that was open is closed after
    the other one is opened.  A line that is no list line closes what is
    open before the line itself.  The two orders are shown on [- a], [1. b]
    and on [1. a], [- b]. *)
Theorem list_blocks_close_after_opening :
  (forall (st : list_state) (line : str) (caps : list str),
     re_match bullet_re line = None ->
     re_match numbered_re line = Some caps ->
     in_itemize st = true -> in_enumerate st = false ->
     result (list_step st line)
     = result st ++ [lit "\begin{enumerate}"; lit "\end{itemize}";
                     item_line caps])
  /\ (forall (st : list_state) (line : str) (caps : list str),
        re_match bullet_re line = Some caps ->
        in_itemize st = false -> in_enumerate st = true ->
        result (list_step st line)
        = result st ++ [lit "\begin{itemize}"; lit "\end{enumerate}";
                        item_line caps])
  /\ (forall (st : list_state) (line : str),
        re_match bullet_re line = None ->
        re_match numbered_re line = None ->
        result (list_step st line)
        = result st
            ++ (if in_itemize st then [lit "\end{itemize}"] else [])
            ++ (if in_enumerate st then [lit "\end{enumerate}"] else [])
            ++ [line])
  /\ convert_lists (lit "- a" ++ nl :: lit "1. b")
     = PyStr.join [nl]
         [lit "\begin{itemize}"; lit "\item a"; lit "\begin{enumerate}";
          lit "\end{itemize}"; lit "\item b"; lit "\end{enumerate}"]
  /\ convert_lists (lit "1. a" ++ nl :: lit "- b")
     = PyStr.join [nl]
         [lit "\begin{enumerate}"; lit "\item a"; lit "\begin{itemize}";
          lit "\end{enumerate}"; lit "\item b"; lit "\end{itemize}"].
Proof.
  split; [|split; [|split; [|vm_compute; split; reflexivity]]].
  - intros st line caps Hb Hn Hi He. unfold list_step. rewrite Hb, Hn.
    list_cases st; try discriminate. rewrite <- !app_assoc. reflexivity.
  - intros st line caps Hb Hi He. unfold list_step. rewrite Hb.
    list_cases st; try discriminate. rewrite <- !app_assoc. reflexivity.
  - intros st line Hb Hn. unfold list_step. rewrite Hb, Hn.
    list_cases st; rewrite <- ?app_assoc; reflexivity.
Qed.

Lemma list_blocks_close_after_opening_witness :
  result (list_step {| result := [lit "\begin{itemize}"; lit "\item a"];
                       in_itemize := true; in_enumerate := false |}
            (lit "1. b"))
  = [lit "\begin{itemize}"; lit "\item a"]
      ++ [lit "\begin{enumerate}"; lit "\end{itemize}";
          item_line [[]; lit "b"]].
Proof.
  apply (proj1 list_blocks_close_after_opening
           {| result := [lit "\begin{itemize}"; lit "\item a"];
              in_itemize := true; in_enumerate := false |}
           (lit "1. b") [[]; lit "b"]);
    reflexivity.
Defined.

(** The part of C4 that the code keeps: a line that is no list line closes
    the open block before the line itself. *)
Example plain_line_closes_block :
  convert_lists (lit "- a" ++ nl :: lit "text")
  = PyStr.join [nl]
      [lit "\begin{itemize}"; lit "\item a"; lit "\end{itemize}"; lit "text"].
Proof. vm_compute. reflexivity. Qed.

Lemma bullet_not_space b : bullet_char b = true -> Unicode.isspace b = false.
Proof.
  unfold bullet_char. intros H.
  apply orb_true_iff in H as [H|H]; [apply orb_true_iff in H as [H|H]|];
    apply N.eqb_eq in H; subst b; reflexivity.
Qed.



(** An iteration only appends to [result]; it leaves an open bullet block
    open or appends its closing line. *)
Lemma list_step_extends st line :
  exists ext,
    result (list_step st line) = result st ++ ext
    /\ (in_itemize st = true ->
        in_itemize (list_step st line) = true \/ In (lit "\end{itemize}") ext).
Proof.
  unfold list_step.
  destruct (re_match bullet_re line) as [caps|];
    [|destruct (re_match numbered_re line) as [caps|]];
    list_cases st;
    rewrite <- ?app_assoc; eexists; (split; [reflexivity|]);
    intros; try discriminate; auto; right; simpl; auto.
Qed.

Lemma list_run_extends lines : forall st,
  exists ext, result (fold_left list_step lines st) = result st ++ ext.
Proof.
  induction lines as [|l ls IH]; intros st; simpl.
  - exists []. rewrite app_nil_r. reflexivity.
  - destruct (IH (list_step st l)) as (e1 & ->).
    destruct (list_step_extends st l) as (e0 & -> & _).
    exists (e0 ++ e1). rewrite app_assoc. reflexivity.
Qed.













(** ** The whitespace pass *)

Lemma spaces_all n : forallb (chr_is space) (repeat space n) = true.
Proof. induction n; simpl; auto. Qed.

(** The pattern [ {2,}] at the start of a maximal run of [n] spaces *)
Lemma match_spaces n rest prev :
  stops (chr_is space) rest ->
  match_at spaces_re prev (repeat space n ++ rest)
  = if Nat.leb 2 n then Some ([], n) else None.
Proof.
  intros Hs. unfold match_at, spaces_re. cbn [run].
  destruct (Nat.leb_spec 2 n) as [Hn|Hn].
  - rewrite (@rep_greedy_max (chr_is space) (fun pv s' => done pv s' [])
               (repeat space n) rest 2 prev ([], rest));
      auto using spaces_all.
    + rewrite length_app, repeat_length, Nat.add_sub. reflexivity.
    + rewrite repeat_length. exact Hn.
  - rewrite rep_too_short; auto. rewrite repeat_length. exact Hn.
Qed.

(** [re.sub] over a maximal run of spaces *)
Lemma sub_loop_run n rest prev :
  stops (chr_is space) rest ->
  exists prev',
    sub_loop spaces_re hspace_repl 0 prev (repeat space n ++ rest)
    = run_command hspace_size n
        ++ sub_loop spaces_re hspace_repl 0 prev' rest.
Proof.
  intros Hs. destruct n as [|n].
  - exists prev. reflexivity.
  - exists (cursor_prev (Some space) (repeat space n)).
    pose proof (@match_spaces (S n) rest prev Hs) as Hm.
    cbn [repeat app] in Hm |- *. rewrite sub_loop_cons, Hm.
    destruct n as [|n]; cbn [Nat.leb].
    + reflexivity.
    + unfold hspace_repl at 1.
      change (space :: repeat space (S n) ++ rest)
        with (repeat space (S (S n)) ++ rest).
      rewrite firstn_app, repeat_length, Nat.sub_diag, firstn_all2
        by (rewrite repeat_length; lia).
      cbn [firstn]. rewrite app_nil_r, repeat_length.
      cbn [pred].
      rewrite <- (repeat_length space (S n)) at 2.
      rewrite sub_loop_skip. reflexivity.
Qed.

Lemma sub_spaces_collapse s : forall n prev,
  sub_loop spaces_re hspace_repl 0 prev (repeat space n ++ s)
  = collapse_runs hspace_size n s.
Proof.
  induction s as [|c s IH]; intros n prev.
  - destruct (@sub_loop_run n [] prev I) as (prev' & ->).
    simpl. apply app_nil_r.
  - cbn [collapse_runs]. destruct (N.eqb_spec c space) as [->|Hc].
    + rewrite <- (IH (S n) prev).
      change (space :: s) with ([space] ++ s).
      rewrite app_assoc, <- repeat_cons. reflexivity.
    + assert (Hs : stops (chr_is space) (c :: s)).
      { unfold stops, chr_is. apply N.eqb_neq. intros E. apply Hc.
        symmetry. exact E. }
      destruct (@sub_loop_run n (c :: s) prev Hs) as (prev' & ->).
      f_equal. rewrite sub_loop_cons.
      pose proof (@match_spaces 0 (c :: s) prev' Hs) as Hm.
      cbn [repeat app Nat.leb] in Hm. rewrite Hm.
      f_equal. apply (IH 0).
Qed.

Lemma no_tab_in_spaces k : existsb (N.eqb tab) (repeat space k) = false.
Proof. induction k; simpl; auto. Qed.

Lemma expandtabs_no_tab s : forall col,
  existsb (N.eqb tab) (PyStr.expandtabs_from 4 col s) = false.
Proof.
  induction s as [|c s IH]; intros col; cbn [PyStr.expandtabs_from].
  - reflexivity.
  - destruct (N.eqb_spec c tab) as [->|Hc].
    + rewrite existsb_app, IH, no_tab_in_spaces. reflexivity.
    + cbn [existsb]. rewrite IH, orb_false_r.
      apply N.eqb_neq. intros E. apply Hc. symmetry. exact E.
Qed.

Lemma next_stop col : (col + (4 - col mod 4)) mod 4 = 0.
Proof.
  pose proof (Nat.div_mod_eq col 4). pose proof (Nat.mod_upper_bound col 4).
  replace (col + (4 - col mod 4)) with ((col / 4 + 1) * 4) by lia.
  apply Nat.Div0.mod_mul.
Qed.

(** After a tab the column is a multiple of 4. *)
Lemma expandtabs_aligned a : forall col,
  forallb same_line a = true ->
  (col + List.length (PyStr.expandtabs_from 4 col (a ++ [tab]))) mod 4 = 0.
Proof.
  induction a as [|c a IH]; intros col Ha.
  - cbn [app PyStr.expandtabs_from]. cbn [N.eqb tab Pos.eqb].
    rewrite app_nil_r, repeat_length. apply next_stop.
  - cbn [forallb] in Ha. apply andb_true_iff in Ha as [Hc Ha].
    cbn [app PyStr.expandtabs_from].
    destruct (N.eqb c tab).
    + rewrite length_app, repeat_length, Nat.add_assoc. apply IH; auto.
    + unfold same_line in Hc. apply negb_true_iff in Hc. rewrite Hc.
      cbn [List.length]. rewrite Nat.add_succ_r. apply (IH (S col)); auto.
Qed.

(** C8, amended in the size: [preserve_whitespace] expands the tabs to the
    next column that is a multiple of 4 and then replaces every maximal run
    of two or more spaces by [\hspace{..em}], whose size is the binary64
    product of the run length and 0.3 as [str] prints it: [0.6] for two
    spaces, [0.8999999999999999] for three.  A single space stays. *)
Theorem preserve_whitespace_runs :
  (forall text : str,
     preserve_whitespace text
     = collapse_runs hspace_size 0 (PyStr.expandtabs 4 text)
     /\ existsb (N.eqb tab) (PyStr.expandtabs 4 text) = false)
  /\ (forall a : str,
        forallb same_line a = true ->
        List.length (PyStr.expandtabs 4 (a ++ [tab])) mod 4 = 0)
  /\ map hspace_size [2; 3; 4; 5; 6; 10]
     = map lit ["0.6"; "0.8999999999999999"; "1.2"; "1.5";
                "1.7999999999999998"; "3.0"]%string.
Proof.
  split; [|split].
  - intros text. split.
    + unfold preserve_whitespace, sub.
      apply (sub_spaces_collapse (PyStr.expandtabs 4 text) 0 None).
    + apply expandtabs_no_tab.
  - intros a Ha. apply (expandtabs_aligned a 0 Ha).
  - vm_compute. reflexivity.
Qed.

Lemma preserve_whitespace_runs_witness :
  List.length (PyStr.expandtabs 4 (lit "ab" ++ [tab])) mod 4 = 0.
Proof.
  apply (proj1 (proj2 preserve_whitespace_runs) (lit "ab")).
  reflexivity.
Defined.

(** C8 as stated fails on three spaces: the spec's size is [0.9], the code
    writes [0.8999999999999999]. *)
Lemma three_spaces_size_is_not_exact :
  ~ whitespace_with_exact_sizes (lit "a   b")
  /\ preserve_whitespace (lit "a   b") = lit "a\hspace{0.8999999999999999em}b"
  /\ collapse_runs exact_size 0 (PyStr.expandtabs 4 (lit "a   b"))
     = lit "a\hspace{0.9em}b".
Proof.
  split; [|split; vm_compute; reflexivity].
  unfold whitespace_with_exact_sizes. vm_compute. discriminate.
Qed.

(** * Further properties *)

(** ** The matcher, continued *)

Lemma sub_loop_passes r f first a : forall rest prev,
  needs_first r first -> avoids first a = true ->
  sub_loop r f 0 prev (a ++ rest)
  = a ++ sub_loop r f 0 (cursor_prev prev a) rest.
Proof.
  induction a as [|c a IH]; intros rest prev Hr Ha.
  - reflexivity.
  - cbn [avoids forallb] in Ha. apply andb_true_iff in Ha as [Hc Ha].
    apply negb_true_iff in Hc.
    cbn [app]. rewrite sub_loop_cons, (Hr prev c (a ++ rest) Hc).
    f_equal. apply IH; assumption.
Qed.

Lemma sub_loop_end r f prev : sub_loop r f 0 prev [] = [].
Proof. reflexivity. Qed.

Lemma sub_unchanged r f first text :
  needs_first r first -> avoids first text = true -> sub r f text = text.
Proof.
  intros Hr Ht. unfold sub.
  pose proof (@sub_loop_passes r f first text [] None Hr Ht) as H.
  rewrite app_nil_r in H. rewrite H, sub_loop_end. apply app_nil_r.
Qed.

(** A text in which the pattern matches nowhere *)
Lemma sub_loop_nowhere r f s : forall prev,
  (forall a b pv, s = a ++ b -> match_at r pv b = None) ->
  sub_loop r f 0 prev s = s.
Proof.
  induction s as [|c s IH]; intros prev H.
  - reflexivity.
  - rewrite sub_loop_cons, (H [] (c :: s) prev eq_refl). f_equal.
    apply IH. intros a b pv E. apply (H (c :: a) b pv). rewrite E. reflexivity.
Qed.

Section MoreRepFacts.
Variable p : char -> bool.
Variable k : option char -> str -> outcome.

Lemma rep_none greedy s min prev :
  (forall taken rest, s = taken ++ rest -> forallb p taken = true ->
     k (cursor_prev prev taken) rest = None) ->
  rep p greedy k min prev s = None.
Proof.
  intros H. destruct (rep p greedy k min prev s) as [r|] eqn:E; [|reflexivity].
  apply rep_sound in E as (taken & rest & Hs & Ht & _ & Hk).
  rewrite (H taken rest Hs Ht) in Hk. discriminate.
Qed.

(** Greedy, the continuation failing after every longer run *)
Lemma rep_greedy_all_fail more : forall rest prev,
  forallb p more = true -> stops p rest ->
  (forall m1 m2, more = m1 ++ m2 -> m1 <> [] ->
     k (cursor_prev prev m1) (m2 ++ rest) = None) ->
  rep p true k 0 prev (more ++ rest) = k prev (more ++ rest).
Proof.
  induction more as [|c more IH]; intros rest prev Hm Hs Hk.
  - destruct rest as [|d rest]; simpl; [reflexivity|].
    simpl in Hs. rewrite Hs. reflexivity.
  - cbn [forallb] in Hm. apply andb_true_iff in Hm as [Pc Hm].
    cbn [app rep]. rewrite Pc.
    rewrite (IH rest (Some c) Hm Hs).
    + assert (H0 : k (Some c) (more ++ rest) = None)
        by (apply (Hk [c] more eq_refl); discriminate).
      rewrite H0. reflexivity.
    + intros m1 m2 E Hne. apply (Hk (c :: m1) m2); [|discriminate].
      rewrite E. reflexivity.
Qed.

Lemma rep_greedy_first taken : forall more rest min prev r,
  forallb p taken = true -> forallb p more = true -> stops p rest ->
  min <= List.length taken ->
  (forall m1 m2, more = m1 ++ m2 -> m1 <> [] ->
     k (cursor_prev prev (taken ++ m1)) (m2 ++ rest) = None) ->
  k (cursor_prev prev taken) (more ++ rest) = Some r ->
  rep p true k min prev (taken ++ more ++ rest) = Some r.
Proof.
  induction taken as [|c t IH]; intros more rest min prev r Ht Hm Hs Hmin Hfail Hk.
  - simpl in Hmin. assert (min = 0) by lia. subst min.
    cbn [app]. rewrite rep_greedy_all_fail; auto.
  - cbn [forallb] in Ht. apply andb_true_iff in Ht as [Pc Ht].
    assert (Hin : forall m, m <= List.length t ->
              rep p true k m (Some c) (t ++ more ++ rest) = Some r).
    { intros m Hle. apply IH; auto. }
    destruct min as [|m]; cbn [app rep]; rewrite Pc.
    + rewrite (Hin 0) by lia. reflexivity.
    + apply Hin. simpl in Hmin. lia.
Qed.

(** Lazy, the continuation failing before the run is complete *)
Lemma rep_lazy_first taken : forall rest min prev r,
  forallb p taken = true -> min <= List.length taken ->
  (forall t1 t2, taken = t1 ++ t2 -> t2 <> [] ->
     k (cursor_prev prev t1) (t2 ++ rest) = None) ->
  k (cursor_prev prev taken) rest = Some r ->
  rep p false k min prev (taken ++ rest) = Some r.
Proof.
  induction taken as [|c t IH]; intros rest min prev r Ht Hmin Hfail Hk.
  - simpl in Hmin. assert (min = 0) by lia. subst min.
    cbn [app]. destruct rest; simpl; cbn in Hk; rewrite Hk; reflexivity.
  - cbn [forallb] in Ht. apply andb_true_iff in Ht as [Pc Ht].
    assert (Hin : forall m, m <= List.length t ->
              rep p false k m (Some c) (t ++ rest) = Some r).
    { intros m Hle. apply IH; auto.
      intros t1 t2 E Hne. apply (Hfail (c :: t1) t2); [|exact Hne].
      rewrite E. reflexivity. }
    destruct min as [|m]; cbn [app rep].
    + assert (H0 : k prev (c :: t ++ rest) = None)
        by (apply (Hfail [] (c :: t) eq_refl); discriminate).
      rewrite H0, Pc. apply Hin. lia.
    + rewrite Pc. apply Hin. simpl in Hmin. lia.
Qed.

End MoreRepFacts.

(** ** The escaping pass, character by character *)

Lemma replace_as_flat_map c new text :
  PyStr.replace c new text = flat_map (fun d => if N.eqb c d then new else [d]) text.
Proof. reflexivity. Qed.

Lemma escape_latex_chars_flat_map :
  forall text : str, escape_latex_chars text = flat_map escape_char text.
Proof.
  intros text. rewrite escape_latex_chars_unfold.
  unfold PyStr.replace. rewrite !flat_map_compose.
  apply flat_map_ext. intros c. unfold escape_char.
  destruct (N.eqb_spec 38 c) as [<-|H1]; [reflexivity|].
  destruct (N.eqb_spec 37 c) as [<-|H2]; [reflexivity|].
  destruct (N.eqb_spec 35 c) as [<-|H3]; [reflexivity|].
  destruct (N.eqb_spec 123 c) as [<-|H4]; [reflexivity|].
  destruct (N.eqb_spec 125 c) as [<-|H5]; [reflexivity|].
  destruct (N.eqb_spec 92 c) as [<-|H6]; [reflexivity|].
  apply N.eqb_neq in H1, H2, H3, H4, H5, H6.
  repeat (rewrite ?H1, ?H2, ?H3, ?H4, ?H5, ?H6; cbn [flat_map app]).
  rewrite (N.eqb_sym c 92), H6. cbn [existsb].
  rewrite !(N.eqb_sym c), H1, H2, H3, H4, H5. reflexivity.
Qed.

(** X1: the escaping pass works character by character.  A backslash becomes
    [\textbackslash{}]; each of [& % # { }] becomes [\textbackslash{}]
    followed by the character itself, because the backslash of its escape is
    rewritten by the last replacement of the loop; every other character,
    [$ ^ _ ~] included, is kept. *)
Theorem escape_latex_chars_per_character :
  forall text : str, escape_latex_chars text = flat_map escape_char text.
Proof. exact escape_latex_chars_flat_map. Qed.

(** ** The blank-lines pass *)

Lemma newlines_app a b : newlines (a ++ b) = newlines a + newlines b.
Proof. unfold newlines. rewrite filter_app, length_app. reflexivity. Qed.

Lemma newlines_all t : forallb (chr_is nl) t = true -> newlines t = List.length t.
Proof.
  induction t as [|c t IH]; intros H; [reflexivity|].
  cbn [forallb] in H. apply andb_true_iff in H as [Hc Ht].
  unfold newlines in *. cbn [filter]. unfold chr_is in Hc. rewrite Hc.
  cbn [List.length]. rewrite IH by exact Ht. reflexivity.
Qed.

Lemma blank_needs_newline : needs_first blank_lines_re (N.eqb nl).
Proof.
  intros prev c s Hc. unfold match_at, blank_lines_re, seqs. cbn [fold_right].
  rewrite run_seq. cbn [run]. unfold chr_is at 1. rewrite Hc. reflexivity.
Qed.

Lemma blank_match_newlines prev s caps n :
  match_at blank_lines_re prev s = Some (caps, n) -> 3 <= newlines s.
Proof.
  unfold match_at, blank_lines_re, seqs. cbn [fold_right].
  destruct (run _ done prev s []) as [[caps' rest]|] eqn:E; [|discriminate].
  intros _. cbn [run] in E.
  destruct s as [|c s1]; [discriminate|].
  destruct (chr_is nl c) eqn:Hc; [|discriminate].
  apply rep_sound in E as (t1 & r1 & -> & _ & _ & E).
  destruct r1 as [|c2 s2]; [discriminate|].
  destruct (chr_is nl c2) eqn:Hc2; [|discriminate].
  apply rep_sound in E as (t2 & r2 & -> & _ & _ & E).
  apply rep_sound in E as (t3 & r3 & -> & H3 & Hlen & _).
  unfold chr_is in Hc, Hc2.
  change (c :: t1 ++ c2 :: t2 ++ t3 ++ r3)
    with ([c] ++ t1 ++ [c2] ++ t2 ++ t3 ++ r3).
  rewrite !newlines_app, (newlines_all t3 H3).
  unfold newlines at 1 3. cbn [filter]. rewrite Hc, Hc2. cbn [List.length]. lia.
Qed.

Lemma newlines_suffix a b : newlines b <= newlines (a ++ b).
Proof. rewrite newlines_app. lia. Qed.

Lemma few_newlines_unchanged :
  forall text : str, newlines text < 3 -> handle_blank_lines text = text.
Proof.
  intros text H. unfold handle_blank_lines, sub.
  apply sub_loop_nowhere. intros a b pv E.
  destruct (match_at blank_lines_re pv b) as [[caps n]|] eqn:M; [|reflexivity].
  apply blank_match_newlines in M.
  pose proof (newlines_suffix a b). rewrite <- E in *. lia.
Qed.

Lemma nl_free_app a b : nl_free (a ++ b) = nl_free a && nl_free b.
Proof. apply forallb_app. Qed.

Lemma nl_free_stops s : nl_free s = true -> stops (chr_is nl) s.
Proof.
  destruct s as [|c s]; [intros; exact I|].
  unfold nl_free, avoids. cbn [forallb stops]. intros H.
  apply andb_true_iff in H as [H _]. apply negb_true_iff in H. exact H.
Qed.

(** Leading whitespace *)
Lemma leading_space s :
  exists w r, s = w ++ r /\ forallb Unicode.isspace w = true
              /\ stops Unicode.isspace r.
Proof.
  induction s as [|c s (w & r & E & Hw & Hr)].
  - exists [], []. repeat split.
  - destruct (Unicode.isspace c) eqn:Hc.
    + exists (c :: w), r. rewrite E. simpl. rewrite Hc, Hw. repeat split. exact Hr.
    + exists [], (c :: s). repeat split. exact Hc.
Qed.

Lemma k2_nl_free pv s : nl_free s = true -> k2 pv s = None.
Proof.
  intros H. unfold k2.
  apply (@rep_too_short (chr_is nl) _ true [] s 1 pv).
  - apply nl_free_stops. exact H.
  - simpl. lia.
Qed.

Lemma k1_nl_free pv s : nl_free s = true -> k1 pv s = None.
Proof.
  intros H. unfold k1, seqs. cbn [fold_right]. rewrite run_seq. cbn [run].
  destruct s as [|c s]; [reflexivity|].
  apply nl_free_stops in H. cbn [stops] in H. rewrite H. reflexivity.
Qed.

Lemma k1_one_newline pv s : nl_free s = true -> k1 pv (nl :: s) = None.
Proof.
  intros H. unfold k1, seqs. cbn [fold_right].
  rewrite run_seq, run_chr by reflexivity.
  rewrite run_seq. cbn [run]. apply rep_none.
  intros taken rest E _. apply k2_nl_free.
  rewrite E, nl_free_app in H. apply andb_true_iff in H as [_ H]. exact H.
Qed.

Lemma k1_two_newlines pv s :
  nl_free s = true -> k1 pv (nl :: nl :: s) = Some ([], s).
Proof.
  intros H. unfold k1, seqs. cbn [fold_right].
  rewrite run_seq, run_chr by reflexivity.
  rewrite run_seq. cbn [run].
  destruct (leading_space s) as (w & r & E & Hw & Hr). subst s.
  change (nl :: w ++ r) with ([] ++ (nl :: w) ++ r).
  apply rep_greedy_first.
  - reflexivity.
  - cbn [forallb]. rewrite Hw. reflexivity.
  - exact Hr.
  - simpl. lia.
  - intros m1 m2 E Hne. apply k2_nl_free.
    rewrite nl_free_app in *. apply andb_true_iff in H as [H1 H2].
    rewrite H2, andb_true_r.
    destruct m1 as [|x m1]; [congruence|].
    injection E as _ E. rewrite E, nl_free_app in H1.
    apply andb_true_iff in H1 as [_ H1]. exact H1.
  - cbn [app cursor_prev fold_left].
    change (nl :: w ++ r) with ([nl] ++ (w ++ r)).
    apply rep_greedy_max.
    + reflexivity.
    + apply nl_free_stops. exact H.
    + simpl. lia.
    + reflexivity.
Qed.

Lemma spaces_newlines j : forallb Unicode.isspace (repeat nl j) = true.
Proof. induction j; simpl; auto. Qed.

(** The pattern on a run of three or more line feeds before a text with no
    line feed: the match is the run. *)
Lemma blank_match_run j b prev :
  nl_free b = true ->
  match_at blank_lines_re prev (repeat nl (3 + j) ++ b) = Some ([], 3 + j).
Proof.
  intros Hb. unfold match_at.
  assert (E : run blank_lines_re done prev (repeat nl (3 + j) ++ b) []
              = Some ([], b)).
  { change (run blank_lines_re done prev (repeat nl (3 + j) ++ b) [])
      with (rep Unicode.isspace true k1 0 (Some nl) (repeat nl (2 + j) ++ b)).
    destruct (leading_space b) as (w & r & Eb & Hw & Hr).
    replace (repeat nl (2 + j) ++ b)
      with (repeat nl j ++ (nl :: nl :: w) ++ r).
    2:{ subst b. rewrite Nat.add_comm, repeat_app, <- !app_assoc. reflexivity. }
    apply rep_greedy_first.
    - apply spaces_newlines.
    - cbn [forallb]. rewrite Hw. reflexivity.
    - exact Hr.
    - lia.
    - intros m1 m2 E Hne.
      assert (Hsuf : forall m, nl_free (m ++ r) = nl_free m && nl_free r)
        by (intros; apply nl_free_app).
      assert (Hwr : nl_free (w ++ r) = true) by (rewrite <- Eb; exact Hb).
      destruct m1 as [|x [|y m1]]; [congruence| |].
      + injection E as _ E. subst m2. apply k1_one_newline. exact Hwr.
      + injection E as _ _ E. apply k1_nl_free.
        rewrite E, <- app_assoc, nl_free_app in Hwr.
        apply andb_true_iff in Hwr as [_ Hwr]. exact Hwr.
    - cbn [app]. rewrite k1_two_newlines; [subst b; reflexivity|].
      rewrite <- Eb. exact Hb. }
  rewrite E. rewrite length_app, Nat.add_sub, repeat_length. reflexivity.
Qed.

(** X2: a run of three or more line feeds between two texts that hold no
    line feed becomes one paragraph break: two line feeds,
    [\vspace{\baselineskip}], two line feeds. *)
Theorem blank_run_collapses :
  forall (a b : str) (k : nat),
    nl_free a = true -> nl_free b = true -> 3 <= k ->
    handle_blank_lines (a ++ repeat nl k ++ b) = a ++ vspace ++ b.
Proof.
  intros a b k Ha Hb Hk. unfold handle_blank_lines, sub.
  rewrite (@sub_loop_passes _ _ (N.eqb nl) a _ None blank_needs_newline Ha).
  f_equal.
  destruct k as [|[|[|j]]]; try lia.
  pose proof (@blank_match_run j b (cursor_prev None a) Hb) as M.
  cbn [repeat app Nat.add] in M |- *.
  rewrite sub_loop_cons, M. f_equal.
  cbn [pred].
  change (nl :: nl :: repeat nl j ++ b) with (repeat nl (S (S j)) ++ b).
  rewrite <- (repeat_length nl (S (S j))) at 1.
  rewrite sub_loop_skip.
  pose proof (@sub_loop_passes blank_lines_re (fun _ _ => vspace) (N.eqb nl) b []
                (cursor_prev (Some nl) (repeat nl (S (S j))))
                blank_needs_newline Hb) as H.
  rewrite app_nil_r in H. rewrite H. apply app_nil_r.
Qed.

Lemma blank_run_collapses_witness :
  handle_blank_lines (lit "a" ++ repeat nl 4 ++ lit "b")
  = lit "a" ++ vspace ++ lit "b".
Proof.
  apply (@blank_run_collapses (lit "a") (lit "b") 4).
  - reflexivity.
  - reflexivity.
  - lia.
Defined.

(** ** The list pass on plain lines *)

(** [split] and [join] *)
Lemma split_nonempty sep s : PyStr.split sep s <> [].
Proof.
  destruct s as [|c s]; simpl; [discriminate|].
  destruct (N.eqb c sep); [discriminate|].
  destruct (PyStr.split sep s); discriminate.
Qed.

Lemma join_split sep s : PyStr.join [sep] (PyStr.split sep s) = s.
Proof.
  induction s as [|c s IH]; [reflexivity|].
  cbn [PyStr.split]. destruct (N.eqb_spec c sep) as [->|Hc].
  - rewrite join_cons by apply split_nonempty. rewrite IH. reflexivity.
  - destruct (PyStr.split sep s) as [|l ls] eqn:E.
    + exfalso. apply (split_nonempty sep s). exact E.
    + destruct ls as [|l' ls].
      * simpl in *. congruence.
      * rewrite join_cons by discriminate. rewrite join_cons in IH by discriminate.
        rewrite <- IH. reflexivity.
Qed.

Lemma list_step_plain st line :
  plain_line line = true ->
  in_itemize st = false -> in_enumerate st = false ->
  list_step st line
  = {| result := result st ++ [line]; in_itemize := false;
       in_enumerate := false |}.
Proof.
  unfold plain_line, list_step. intros H Hi He.
  destruct (re_match bullet_re line); [discriminate|].
  destruct (re_match numbered_re line); [discriminate|].
  destruct st as [res i e]. cbn in Hi, He. subst. reflexivity.
Qed.

Lemma list_run_plain lines : forall st,
  forallb plain_line lines = true ->
  in_itemize st = false -> in_enumerate st = false ->
  fold_left list_step lines st
  = {| result := result st ++ lines; in_itemize := false;
       in_enumerate := false |}.
Proof.
  induction lines as [|l ls IH]; intros st H Hi He.
  - destruct st as [res i e]. cbn in *. subst. rewrite app_nil_r. reflexivity.
  - cbn [forallb] in H. apply andb_true_iff in H as [Hl Hls].
    cbn [fold_left]. rewrite (list_step_plain st l Hl Hi He).
    rewrite IH by auto. cbn [result]. rewrite <- app_assoc. reflexivity.
Qed.

Lemma convert_lists_plain_lines :
  forall text : str,
    forallb plain_line (PyStr.split nl text) = true ->
    convert_lists text = text.
Proof.
  intros text H. unfold convert_lists.
  change (list (list char)) with (list str) in *.
  rewrite (list_run_plain (PyStr.split nl text) list_start H eq_refl eq_refl).
  cbn. apply join_split.
Qed.

(** X4: the list pass returns the text unchanged when none of its lines is a
    bullet line or a numbered line: no block is opened, no line is
    rewritten. *)
Theorem no_list_lines_unchanged :
  forall text : str,
    forallb plain_line (PyStr.split nl text) = true ->
    convert_lists text = text.
Proof. exact convert_lists_plain_lines. Qed.

Lemma no_list_lines_unchanged_witness :
  convert_lists (lit "a - b" ++ nl :: lit "3.14 is not 1.")
  = lit "a - b" ++ nl :: lit "3.14 is not 1.".
Proof.
  apply (@no_list_lines_unchanged (lit "a - b" ++ nl :: lit "3.14 is not 1.")).
  vm_compute. reflexivity.
Defined.

(** Where the list patterns can match *)
Lemma bullet_needs_bullet line caps :
  re_match bullet_re line = Some caps -> existsb bullet_char line = true.
Proof.
  unfold re_match, match_at, bullet_re, seqs. cbn [fold_right].
  destruct (run _ done None line []) as [[caps' rest']|] eqn:E; [|discriminate].
  intros _. rewrite run_seq in E.
  change (run (Bol false) ?k None ?s ?c) with (k None s c) in E.
  rewrite run_seq in E. cbn [run] in E.
  apply rep_sound in E as (taken & rest & -> & _ & _ & E).
  destruct rest as [|c rest]; [discriminate|].
  destruct (bullet_char c) eqn:Hc; [|discriminate].
  rewrite existsb_app. cbn [existsb]. rewrite Hc. apply orb_true_r.
Qed.

Lemma numbered_needs_digit line caps :
  re_match numbered_re line = Some caps ->
  existsb Unicode.isdecimal line = true.
Proof.
  unfold re_match, match_at, numbered_re, seqs. cbn [fold_right].
  destruct (run _ done None line []) as [[caps' rest']|] eqn:E; [|discriminate].
  intros _. rewrite run_seq in E.
  change (run (Bol false) ?k None ?s ?c) with (k None s c) in E.
  rewrite run_seq in E. cbn [run] in E.
  apply rep_sound in E as (taken & rest & -> & _ & _ & E).
  apply rep_sound in E as (ds & rest2 & -> & Hds & Hlen & _).
  rewrite !existsb_app.
  destruct ds as [|d ds]; [simpl in Hlen; lia|].
  cbn [forallb] in Hds. apply andb_true_iff in Hds as [Hd _].
  cbn [existsb]. rewrite Hd. cbn. apply orb_true_r.
Qed.

Lemma no_markers_plain line :
  existsb bullet_char line = false ->
  existsb Unicode.isdecimal line = false ->
  plain_line line = true.
Proof.
  intros Hb Hd. unfold plain_line.
  destruct (re_match bullet_re line) as [c|] eqn:E1.
  - apply bullet_needs_bullet in E1. congruence.
  - destruct (re_match numbered_re line) as [c|] eqn:E2; [|reflexivity].
    apply numbered_needs_digit in E2. congruence.
Qed.

(** ** Numbered lines *)

Lemma in_range_cases lo hi c :
  ((lo <=? c) && (c <=? hi))%N = true ->
  In c (map (fun i => (lo + N.of_nat i)%N) (seq 0 (S (N.to_nat (hi - lo))))).
Proof.
  intros H. apply andb_true_iff in H as [H1 H2].
  apply N.leb_le in H1, H2. apply in_map_iff.
  exists (N.to_nat (c - lo)). split; [lia|].
  apply in_seq. lia.
Qed.

(** No whitespace character is a decimal digit. *)
Lemma space_not_decimal c :
  Unicode.isspace c = true -> Unicode.isdecimal c = false.
Proof.
  unfold Unicode.isspace, Unicode.in_ranges, Unicode.whitespace_ranges.
  cbn [existsb fst snd]. intros H.
  repeat (apply orb_true_iff in H as [H|H];
          [apply in_range_cases in H; cbn in H;
           repeat (destruct H as [<-|H]; [reflexivity|]); destruct H|]).
  discriminate.
Qed.

Lemma decimal_not_space c :
  Unicode.isdecimal c = true -> Unicode.isspace c = false.
Proof.
  intros H. destruct (Unicode.isspace c) eqn:E; [|reflexivity].
  apply space_not_decimal in E. congruence.
Qed.

Lemma bullet_not_decimal c :
  bullet_char c = true -> Unicode.isdecimal c = false.
Proof.
  unfold bullet_char. intros H.
  apply orb_true_iff in H as [H|H]; [apply orb_true_iff in H as [H|H]|];
    apply N.eqb_eq in H; subst c; reflexivity.
Qed.

Lemma bullet_re_none w x :
  forallb Unicode.isspace w = true -> no_bullet_first x ->
  re_match bullet_re (w ++ x) = None.
Proof.
  intros Hw Hx. unfold re_match, match_at, bullet_re, seqs. cbn [fold_right].
  destruct (run _ done None (w ++ x) []) as [[caps rest']|] eqn:E;
    [exfalso|reflexivity].
  rewrite run_seq in E.
  change (run (Bol false) ?k None ?s ?c) with (k None s c) in E.
  rewrite run_seq in E. cbn [run] in E.
  apply rep_sound in E as (taken & rest & Hs & Ht & _ & E).
  destruct rest as [|c rest]; [discriminate|].
  destruct (bullet_char c) eqn:Hc; [|discriminate].
  clear E. symmetry in Hs. apply app_eq_app in Hs as (l & [[E1 E2]|[E1 E2]]).
  - (* taken = w ++ l *)
    destruct l as [|d l].
    + cbn [app] in E2. subst x. cbn [no_bullet_first] in Hx.
      destruct Hx as [Hb _]. congruence.
    + subst x. cbn [no_bullet_first app] in Hx. destruct Hx as [_ Hd].
      rewrite E1, forallb_app in Ht. apply andb_true_iff in Ht as [_ Ht].
      cbn [forallb] in Ht. apply andb_true_iff in Ht as [Ht _]. congruence.
  - (* w = taken ++ l *)
    destruct l as [|d l].
    + cbn [app] in E2. subst x. cbn [no_bullet_first] in Hx.
      destruct Hx as [Hb _]. congruence.
    + injection E2 as -> _.
      rewrite E1, forallb_app in Hw. apply andb_true_iff in Hw as [_ Hw].
      cbn [forallb] in Hw. apply andb_true_iff in Hw as [Hw _].
      apply bullet_not_space in Hc. congruence.
Qed.

Lemma run_rep_greedy p min (k : cont) prev taken rest caps r :
  forallb p taken = true -> stops p rest ->
  min <= List.length taken ->
  k (cursor_prev prev taken) rest caps = Some r ->
  run (Rep p min true) k prev (taken ++ rest) caps = Some r.
Proof.
  intros Ht Hs Hm Hk. cbn [run]. apply rep_greedy_max; auto.
Qed.

(** The numbered pattern on a numbered line: the groups are the leading
    whitespace and the item text; the number is in no group. *)
Lemma numbered_re_match w ds t :
  forallb Unicode.isspace w = true ->
  ds <> [] -> forallb Unicode.isdecimal ds = true ->
  t <> [] -> forallb dot t = true ->
  re_match numbered_re (w ++ ds ++ full_stop :: space :: t) = Some [w; t].
Proof.
  intros Hw Hne Hds Hnt Hdot.
  assert (E : run numbered_re done None (w ++ ds ++ full_stop :: space :: t) []
              = Some ([w; t], [])).
  { unfold numbered_re, seqs. cbn [fold_right].
    rewrite run_seq. change (run (Bol false) ?k None ?s ?c) with (k None s c).
    rewrite run_seq. apply run_group_greedy; auto.
    - destruct ds as [|d ds]; [congruence|].
      cbn [forallb] in Hds. apply andb_true_iff in Hds as [Hd _].
      cbn [app stops]. apply decimal_not_space. exact Hd.
    - lia.
    - rewrite run_seq. apply run_rep_greedy; auto.
      + reflexivity.
      + apply nonempty_length; auto.
      + rewrite run_seq, run_chr by reflexivity.
        rewrite run_seq, run_chr by reflexivity.
        rewrite run_seq. apply run_group_greedy_end; auto.
        apply nonempty_length; auto. }
  unfold re_match, match_at. rewrite E. reflexivity.
Qed.

Lemma numbered_not_bullet w ds x :
  forallb Unicode.isspace w = true ->
  ds <> [] -> forallb Unicode.isdecimal ds = true ->
  re_match bullet_re (w ++ ds ++ x) = None.
Proof.
  intros Hw Hne Hds. apply bullet_re_none; auto.
  destruct ds as [|d ds]; [congruence|].
  cbn [forallb] in Hds. apply andb_true_iff in Hds as [Hd _].
  cbn [app no_bullet_first]. split.
  - destruct (bullet_char d) eqn:E; [|reflexivity].
    apply bullet_not_decimal in E. congruence.
  - apply decimal_not_space. exact Hd.
Qed.

(** One iteration on a numbered line *)
Lemma list_step_numbered st w ds t :
  forallb Unicode.isspace w = true ->
  ds <> [] -> forallb Unicode.isdecimal ds = true ->
  t <> [] -> forallb dot t = true ->
  list_step st (w ++ ds ++ full_stop :: space :: t)
  = {| result :=
         result st
           ++ (if in_enumerate st then [] else [lit "\begin{enumerate}"])
           ++ (if in_itemize st then [lit "\end{itemize}"] else [])
           ++ [bullet_item w t];
       in_itemize := false;
       in_enumerate := true |}.
Proof.
  intros Hw Hne Hds Hnt Hdot. unfold list_step.
  rewrite numbered_not_bullet by assumption.
  rewrite numbered_re_match by assumption.
  unfold item_line, bullet_item, group. cbn [pred nth].
  list_cases st; rewrite <- ?app_assoc; reflexivity.
Qed.

Lemma list_step_extends_enum st line :
  exists ext,
    result (list_step st line) = result st ++ ext
    /\ (in_enumerate st = true ->
        in_enumerate (list_step st line) = true
        \/ In (lit "\end{enumerate}") ext).
Proof.
  unfold list_step.
  destruct (re_match bullet_re line) as [caps|];
    [|destruct (re_match numbered_re line) as [caps|]];
    list_cases st;
    rewrite <- ?app_assoc; eexists; (split; [reflexivity|]);
    intros; try discriminate; auto; right; simpl; auto.
Qed.

Lemma list_close_extends_enum st :
  exists ext,
    result (list_close st) = result st ++ ext
    /\ (in_enumerate st = true -> In (lit "\end{enumerate}") ext).
Proof.
  unfold list_close. list_cases st; rewrite <- ?app_assoc.
  1-3: eexists; (split; [reflexivity|]); intros; try discriminate; simpl; auto.
  exists []. rewrite app_nil_r. split; [reflexivity|discriminate].
Qed.

Lemma numbered_block_is_closed lines : forall st,
  in_enumerate st = true ->
  exists ext,
    result (list_close (fold_left list_step lines st)) = result st ++ ext
    /\ In (lit "\end{enumerate}") ext.
Proof.
  induction lines as [|l ls IH]; intros st Hopen; simpl.
  - destruct (list_close_extends_enum st) as (e & He & Hin). eauto.
  - destruct (list_step_extends_enum st l) as (e0 & He0 & Hcase).
    destruct (Hcase Hopen) as [Hstill|Hclosed].
    + destruct (IH _ Hstill) as (e1 & -> & Hin).
      rewrite He0. exists (e0 ++ e1). rewrite app_assoc. split; auto.
      apply in_or_app. auto.
    + destruct (list_run_extends ls (list_step st l)) as (e1 & He1).
      destruct (list_close_extends_enum
                  (fold_left list_step ls (list_step st l)))
        as (e2 & -> & _).
      rewrite He1, He0. exists (e0 ++ e1 ++ e2).
      rewrite <- !app_assoc. split; auto.
      apply in_or_app. auto.
Qed.

Lemma numbered_block_was_opened lines : forall st,
  (in_enumerate st = true -> In (lit "\begin{enumerate}") (result st)) ->
  in_enumerate (fold_left list_step lines st) = true ->
  In (lit "\begin{enumerate}") (result (fold_left list_step lines st)).
Proof.
  induction lines as [|l ls IH]; intros st Hinv; simpl; auto.
  apply IH. unfold list_step.
  destruct (re_match bullet_re l) as [caps|];
    [|destruct (re_match numbered_re l) as [caps|]];
    list_cases st;
    intros Hopen; try discriminate;
    try pose proof (Hinv eq_refl);
    rewrite ?in_app_iff; simpl; tauto.
Qed.

(** X5: the list pass turns a numbered line (optional leading whitespace
    [w], decimal digits, a full stop, a space, a non-empty text [t]) into an
    item line that stands after a [\begin{enumerate}] line and before an
    [\end{enumerate}] line.  The item line has two spaces for every two
    characters of [w], then [\item] and [t]; the number is dropped. *)
Theorem numbered_line_in_list_pass :
  forall (text : str) (w ds t : str),
    In (w ++ ds ++ full_stop :: space :: t) (PyStr.split nl text) ->
    forallb Unicode.isspace w = true ->
    ds <> [] -> forallb Unicode.isdecimal ds = true ->
    t <> [] ->
    exists before after : list str,
      convert_lists text
      = PyStr.join [nl]
          (before
             ++ (PyStr.times (lit "  ") (Nat.div (List.length w) 2)
                   ++ lit "\item " ++ t)
             :: after)
      /\ In (lit "\begin{enumerate}") before
      /\ In (lit "\end{enumerate}") after.
Proof.
  intros text w ds t Hin Hw Hne Hds Hnt.
  assert (Hdot : forallb dot t = true).
  { pose proof (split_no_sep nl text _ Hin) as H.
    change (w ++ ds ++ full_stop :: space :: t)
      with (w ++ ds ++ [full_stop; space] ++ t) in H.
    rewrite !forallb_app in H. apply andb_true_iff in H as [_ H].
    apply andb_true_iff in H as [_ H].
    apply andb_true_iff in H as [_ H]. exact H. }
  apply in_split in Hin as (pre & post & Hsplit).
  unfold convert_lists. rewrite Hsplit, fold_left_app. cbn [fold_left].
  change (list char) with str.
  set (st0 := fold_left list_step pre list_start).
  rewrite (@list_step_numbered st0 w ds t Hw Hne Hds Hnt Hdot).
  match goal with
  | |- context [fold_left list_step post ?s] => set (st1 := s)
  end.
  destruct (numbered_block_is_closed post st1 eq_refl) as (after & -> & Hafter).
  exists (result st0
            ++ (if in_enumerate st0 then [] else [lit "\begin{enumerate}"])
            ++ (if in_itemize st0 then [lit "\end{itemize}"] else [])),
    after.
  split; [|split; [|exact Hafter]].
  - subst st1. cbn [result]. unfold bullet_item.
    rewrite <- !app_assoc. reflexivity.
  - destruct (in_enumerate st0) eqn:Hopen.
    + apply in_or_app. left. subst st0.
      apply numbered_block_was_opened; [discriminate|exact Hopen].
    + apply in_or_app. right. left. reflexivity.
Qed.

Lemma numbered_line_in_list_pass_witness :
  exists before after : list str,
    convert_lists (lit "x" ++ nl :: lit "  12. a b")
    = PyStr.join [nl]
        (before
           ++ (PyStr.times (lit "  ") (Nat.div (List.length (lit "  ")) 2)
                 ++ lit "\item " ++ lit "a b")
           :: after)
    /\ In (lit "\begin{enumerate}") before
    /\ In (lit "\end{enumerate}") after.
Proof.
  apply (@numbered_line_in_list_pass (lit "x" ++ nl :: lit "  12. a b")
           (lit "  ") (lit "12") (lit "a b")).
  - right. left. reflexivity.
  - reflexivity.
  - discriminate.
  - reflexivity.
  - discriminate.
Defined.

(** ** Emphasis spans *)

Lemma Str_chars s : Str s = chars_re (lit s).
Proof. reflexivity. Qed.

Lemma chr_is_refl c : chr_is c c = true.
Proof. apply N.eqb_refl. Qed.

Lemma run_chars s0 : forall (k : cont) prev s caps,
  run (chars_re s0) k prev (s0 ++ s) caps = k (cursor_prev prev s0) s caps.
Proof.
  induction s0 as [|c s0 IH]; intros k prev s caps.
  - reflexivity.
  - change (chars_re (c :: s0)) with (Seq (Chr (chr_is c)) (chars_re s0)).
    cbn [app]. rewrite run_seq, run_chr by apply chr_is_refl. apply IH.
Qed.

(** The literal fails where its first character is not next. *)
Lemma run_chars_first c s0 (k : cont) prev s caps :
  stops (chr_is c) s -> run (chars_re (c :: s0)) k prev s caps = None.
Proof.
  intros H. change (chars_re (c :: s0)) with (Seq (Chr (chr_is c)) (chars_re s0)).
  rewrite run_seq. cbn [run]. destruct s as [|d s]; [reflexivity|].
  cbn [stops] in H. rewrite H. reflexivity.
Qed.

Lemma avoids_app first a b : avoids first (a ++ b) = avoids first a && avoids first b.
Proof. apply forallb_app. Qed.

Lemma avoids_stops d s : avoids (N.eqb d) s = true -> stops (chr_is d) s.
Proof.
  destruct s as [|c s]; [intros; exact I|].
  unfold avoids. cbn [forallb stops]. intros H.
  apply andb_true_iff in H as [H _]. apply negb_true_iff in H. exact H.
Qed.

Lemma avoids_suffix first a b : avoids first (a ++ b) = true -> avoids first b = true.
Proof. rewrite avoids_app. intros H. apply andb_true_iff in H as [_ H]. exact H. Qed.

Lemma avoids_forallb_isnt d s :
  avoids (N.eqb d) s = true -> forallb (chr_isnt d) s = true.
Proof. intros H. exact H. Qed.

(** [opening(.+?)closing] on a span whose body holds no line feed and not the
    first character of [closing] *)
Lemma delimited_span (o : str) (c0 : char) (c body rest : str) prev :
  body <> [] -> forallb dot body = true -> avoids (N.eqb c0) body = true ->
  run (seqs [chars_re o; Grp (Rep dot 1 false); chars_re (c0 :: c)]) done prev
      (o ++ body ++ (c0 :: c) ++ rest) []
  = Some ([body], rest).
Proof.
  intros Hne Hdot Hav. unfold seqs. cbn [fold_right].
  rewrite run_seq, run_chars. rewrite run_seq. cbn [run].
  apply rep_lazy_first; auto.
  - apply nonempty_length. exact Hne.
  - intros t1 t2 E Hne2. apply run_chars_first.
    rewrite E in Hav. apply avoids_suffix in Hav.
    destruct t2 as [|d t2]; [congruence|].
    apply avoids_stops in Hav. exact Hav.
  - rewrite firstn_app_exact. rewrite run_chars. reflexivity.
Qed.

(** The italic pattern on a span *)
Lemma italic_span (d : char) (body rest : str) prev :
  prev <> Some d -> body <> [] -> avoids (N.eqb d) body = true ->
  stops (chr_is d) rest ->
  run (italic_re d) done prev (d :: body ++ d :: rest) [] = Some ([body], rest).
Proof.
  intros Hp Hne Hav Hrest. unfold italic_re, seqs. cbn [fold_right].
  rewrite run_seq.
  assert (Hnb : forall k s caps,
             run (NotBehind d) k prev s caps = k prev s caps).
  { intros k s caps. cbn [run]. destruct prev as [c|]; [|reflexivity].
    destruct (N.eqb_spec d c); [congruence|reflexivity]. }
  rewrite Hnb. rewrite run_seq, run_chr by apply chr_is_refl.
  rewrite run_seq. cbn [run].
  apply rep_lazy_first; auto.
  - apply nonempty_length. exact Hne.
  - intros t1 t2 E Hne2.
    rewrite E in Hav. apply avoids_suffix in Hav.
    destruct t2 as [|e t2]; [congruence|].
    apply avoids_stops in Hav. cbn [stops] in Hav. cbn [app]. rewrite Hav.
    reflexivity.
  - rewrite firstn_app_exact. rewrite chr_is_refl.
    destruct rest as [|e rest]; [reflexivity|].
    cbn [stops] in Hrest. unfold chr_is in Hrest. rewrite Hrest. reflexivity.
Qed.

(** [re.sub] at a cursor where the pattern matches *)
Lemma sub_at_match r f prev (x : char) (l post : str) caps :
  match_at r prev (x :: l ++ post) = Some (caps, S (List.length l)) ->
  sub_loop r f 0 prev (x :: l ++ post)
  = f (x :: l) caps ++ sub_loop r f 0 (cursor_prev (Some x) l) post.
Proof.
  intros H. rewrite sub_loop_cons, H. cbn [pred firstn].
  rewrite firstn_app, Nat.sub_diag, firstn_all. cbn [firstn].
  rewrite app_nil_r, sub_loop_skip. reflexivity.
Qed.

Lemma cursor_prev_app prev a b :
  cursor_prev prev (a ++ b) = cursor_prev (cursor_prev prev a) b.
Proof. unfold cursor_prev. apply fold_left_app. Qed.

Lemma cursor_prev_avoids d prev a :
  prev <> Some d -> avoids (N.eqb d) a = true -> cursor_prev prev a <> Some d.
Proof.
  revert prev. induction a as [|c a IH]; intros prev Hp Ha; [exact Hp|].
  unfold avoids in Ha. cbn [forallb] in Ha. apply andb_true_iff in Ha as [Hc Ha].
  apply negb_true_iff, N.eqb_neq in Hc.
  cbn. apply IH; [congruence|exact Ha].
Qed.

Lemma delimited_needs_first o c o0 o' :
  lit o = o0 :: o' -> needs_first (delimited_re o c) (N.eqb o0).
Proof.
  intros Ho prev d s Hd. unfold match_at, delimited_re, seqs. cbn [fold_right].
  rewrite run_seq, Str_chars, Ho, run_chars_first; [reflexivity|exact Hd].
Qed.

Lemma italic_needs_first d : needs_first (italic_re d) (N.eqb d).
Proof.
  intros prev c s Hc. unfold match_at, italic_re, seqs. cbn [fold_right].
  rewrite run_seq. cbn [run]. unfold chr_is. rewrite Hc.
  destruct prev as [e|]; [destruct (N.eqb d e)|]; reflexivity.
Qed.

(** A doubled delimiter does not match at a single one. *)
Lemma double_needs_second o c (d : char) (o' : str) prev (s : str) :
  lit o = d :: d :: o' -> stops (chr_is d) s ->
  match_at (delimited_re o c) prev (d :: s) = None.
Proof.
  intros Ho Hs. unfold match_at, delimited_re, seqs. cbn [fold_right].
  rewrite run_seq, Str_chars, Ho.
  change (chars_re (d :: d :: o'))
    with (Seq (Chr (chr_is d)) (chars_re (d :: o'))).
  rewrite run_seq, run_chr by apply chr_is_refl.
  rewrite run_chars_first; [reflexivity|exact Hs].
Qed.

Lemma sub_loop_all r f first a prev :
  needs_first r first -> avoids first a = true ->
  sub_loop r f 0 prev a = a.
Proof.
  intros Hr Ha.
  pose proof (@sub_loop_passes r f first a [] prev Hr Ha) as H.
  rewrite app_nil_r in H. rewrite H, sub_loop_end. apply app_nil_r.
Qed.

Lemma sub_double_on_single o c f (d : char) (o' pre body post : str) :
  lit o = d :: d :: o' ->
  avoids (N.eqb d) pre = true -> body <> [] ->
  avoids (N.eqb d) body = true -> avoids (N.eqb d) post = true ->
  sub (delimited_re o c) f (pre ++ d :: body ++ d :: post)
  = pre ++ d :: body ++ d :: post.
Proof.
  intros Ho Hpre Hne Hbody Hpost. unfold sub.
  assert (Hr : needs_first (delimited_re o c) (N.eqb d))
    by (eapply delimited_needs_first; exact Ho).
  rewrite (@sub_loop_passes _ _ (N.eqb d) pre _ None Hr Hpre). f_equal.
  rewrite sub_loop_cons, (@double_needs_second o c d o' _ _ Ho).
  2:{ destruct body as [|b body]; [congruence|].
      apply avoids_stops in Hbody. exact Hbody. }
  f_equal.
  rewrite (@sub_loop_passes _ _ (N.eqb d) body _ _ Hr Hbody). f_equal.
  rewrite sub_loop_cons, (@double_needs_second o c d o' _ _ Ho)
    by (apply avoids_stops; exact Hpost).
  f_equal. apply (@sub_loop_all _ _ _ post _ Hr Hpost).
Qed.

Lemma sub_delimited_span o c cmd (o0 : char) (o' : str) (c0 : char)
      (c' pre body post : str) :
  lit o = o0 :: o' -> lit c = c0 :: c' ->
  avoids (N.eqb o0) pre = true ->
  body <> [] -> forallb dot body = true -> avoids (N.eqb c0) body = true ->
  avoids (N.eqb o0) post = true ->
  sub (delimited_re o c) (template cmd "}")
      (pre ++ lit o ++ body ++ lit c ++ post)
  = pre ++ lit cmd ++ body ++ lit "}" ++ post.
Proof.
  intros Ho Hc Hpre Hne Hdot Hbody Hpost. unfold sub.
  assert (Hr : needs_first (delimited_re o c) (N.eqb o0))
    by (eapply delimited_needs_first; exact Ho).
  rewrite (@sub_loop_passes _ _ (N.eqb o0) pre _ None Hr Hpre). f_equal.
  assert (M : match_at (delimited_re o c) (cursor_prev None pre)
                (lit o ++ body ++ lit c ++ post)
              = Some ([body], List.length (lit o ++ body ++ lit c))).
  { unfold match_at, delimited_re. rewrite !Str_chars. rewrite Hc.
    rewrite (@delimited_span (lit o) c0 c' body post _ Hne Hdot Hbody).
    f_equal. f_equal.
    replace (lit o ++ body ++ (c0 :: c') ++ post)
      with ((lit o ++ body ++ (c0 :: c')) ++ post)
      by (rewrite <- !app_assoc; reflexivity).
    rewrite length_app, Nat.add_sub. reflexivity. }
  replace (lit o ++ body ++ lit c ++ post)
    with (o0 :: (o' ++ body ++ lit c) ++ post) in M |- *
    by (rewrite Ho, <- !app_assoc; reflexivity).
  replace (List.length (lit o ++ body ++ lit c))
    with (S (List.length (o' ++ body ++ lit c))) in M
    by (rewrite Ho; reflexivity).
  rewrite (@sub_at_match _ _ _ _ _ _ _ M).
  rewrite (@sub_loop_all _ _ _ post _ Hr Hpost).
  unfold template, group. cbn [pred nth]. rewrite <- !app_assoc. reflexivity.
Qed.

Lemma sub_italic_span (d : char) cmd (pre body post : str) :
  avoids (N.eqb d) pre = true -> body <> [] ->
  avoids (N.eqb d) body = true -> avoids (N.eqb d) post = true ->
  sub (italic_re d) (template cmd "}") (pre ++ d :: body ++ d :: post)
  = pre ++ lit cmd ++ body ++ lit "}" ++ post.
Proof.
  intros Hpre Hne Hbody Hpost. unfold sub.
  pose proof (italic_needs_first d) as Hr.
  rewrite (@sub_loop_passes _ _ (N.eqb d) pre _ None Hr Hpre). f_equal.
  assert (M : match_at (italic_re d) (cursor_prev None pre)
                (d :: (body ++ [d]) ++ post)
              = Some ([body], S (List.length (body ++ [d])))).
  { unfold match_at. rewrite <- app_assoc. cbn [app].
    rewrite (@italic_span d body post _).
    - f_equal. f_equal. cbn [List.length]. rewrite !length_app.
      cbn [List.length]. lia.
    - apply cursor_prev_avoids; [discriminate|exact Hpre].
    - exact Hne.
    - exact Hbody.
    - apply avoids_stops. exact Hpost. }
  replace (d :: body ++ d :: post) with (d :: (body ++ [d]) ++ post)
    by (rewrite <- app_assoc; reflexivity).
  rewrite (@sub_at_match _ _ _ _ _ _ _ M).
  rewrite (@sub_loop_all _ _ _ post _ Hr Hpost).
  unfold template, group. cbn [pred nth]. rewrite <- !app_assoc. reflexivity.
Qed.

Lemma avoids_marker d x :
  marker d = true -> avoids marker x = true -> avoids (N.eqb d) x = true.
Proof.
  intros Hd Hx. unfold avoids in *. rewrite forallb_forall in *.
  intros c Hc. specialize (Hx c Hc).
  destruct (N.eqb_spec d c) as [->|]; [|reflexivity].
  rewrite Hd in Hx. discriminate.
Qed.

Lemma avoids_dot body : nl_free body = true -> forallb dot body = true.
Proof. intros H. exact H. Qed.

Ltac marker_facts Hpre Hbody Hpost :=
  pose proof (@avoids_marker 42%N _ eq_refl Hpre);
  pose proof (@avoids_marker 95%N _ eq_refl Hpre);
  pose proof (@avoids_marker 60%N _ eq_refl Hpre);
  pose proof (@avoids_marker 94%N _ eq_refl Hpre);
  pose proof (@avoids_marker 126%N _ eq_refl Hpre);
  pose proof (@avoids_marker 42%N _ eq_refl Hbody);
  pose proof (@avoids_marker 95%N _ eq_refl Hbody);
  pose proof (@avoids_marker 60%N _ eq_refl Hbody);
  pose proof (@avoids_marker 94%N _ eq_refl Hbody);
  pose proof (@avoids_marker 126%N _ eq_refl Hbody);
  pose proof (@avoids_marker 42%N _ eq_refl Hpost);
  pose proof (@avoids_marker 95%N _ eq_refl Hpost);
  pose proof (@avoids_marker 60%N _ eq_refl Hpost);
  pose proof (@avoids_marker 94%N _ eq_refl Hpost);
  pose proof (@avoids_marker 126%N _ eq_refl Hpost).

(** An emphasis pattern leaves alone a text without its first character. *)
Ltac pass_unchanged :=
  match goal with
  | |- context [sub (delimited_re ?o ?c) ?f ?x] =>
      lazymatch x with
      | context [sub] => fail
      | _ =>
          let o0 := eval compute in (hd 0%N (lit o)) in
          rewrite (@sub_unchanged (delimited_re o c) f (N.eqb o0) x
                     (@delimited_needs_first o c o0 _ eq_refl));
          [|cbn [app]; unfold avoids in *;
            repeat (progress (rewrite ?forallb_app; cbn [forallb]));
            repeat match goal with H : forallb _ _ = true |- _ => rewrite H end;
            reflexivity]
      end
  | |- context [sub (italic_re ?d) ?f ?x] =>
      lazymatch x with
      | context [sub] => fail
      | _ =>
          let d0 := eval compute in d in
          rewrite (@sub_unchanged (italic_re d) f (N.eqb d0) x
                     (italic_needs_first d0));
          [|cbn [app]; unfold avoids in *;
            repeat (progress (rewrite ?forallb_app; cbn [forallb]));
            repeat match goal with H : forallb _ _ = true |- _ => rewrite H end;
            reflexivity]
      end
  end.

(** X6: one emphasis span in a text without other emphasis characters.  When
    [pre], [body] and [post] hold none of [* _ < ^ ~] and [body] is a
    non-empty text of one line, the emphasis pass replaces [**body**] and
    [__body__] by [\textbf{body}], [*body*] and [_body_] by [\textit{body}],
    [<u>body</u>] by [\underline{body}], [^body^] by
    [\textsuperscript{body}] and [~body~] by [\textsubscript{body}], and
    keeps the text around the span. *)
Theorem emphasis_spans :
  forall pre body post : str,
    avoids marker pre = true -> avoids marker body = true ->
    avoids marker post = true -> body <> [] -> nl_free body = true ->
    convert_formatting (pre ++ lit "**" ++ body ++ lit "**" ++ post)
    = pre ++ lit "\textbf{" ++ body ++ lit "}" ++ post
    /\ convert_formatting (pre ++ lit "__" ++ body ++ lit "__" ++ post)
       = pre ++ lit "\textbf{" ++ body ++ lit "}" ++ post
    /\ convert_formatting (pre ++ lit "*" ++ body ++ lit "*" ++ post)
       = pre ++ lit "\textit{" ++ body ++ lit "}" ++ post
    /\ convert_formatting (pre ++ lit "_" ++ body ++ lit "_" ++ post)
       = pre ++ lit "\textit{" ++ body ++ lit "}" ++ post
    /\ convert_formatting (pre ++ lit "<u>" ++ body ++ lit "</u>" ++ post)
       = pre ++ lit "\underline{" ++ body ++ lit "}" ++ post
    /\ convert_formatting (pre ++ lit "^" ++ body ++ lit "^" ++ post)
       = pre ++ lit "\textsuperscript{" ++ body ++ lit "}" ++ post
    /\ convert_formatting (pre ++ lit "~" ++ body ++ lit "~" ++ post)
       = pre ++ lit "\textsubscript{" ++ body ++ lit "}" ++ post.
Proof.
  intros pre body post Hpre Hbody Hpost Hne Hnl.
  pose proof (@avoids_dot body Hnl) as Hdot.
  marker_facts Hpre Hbody Hpost.
  unfold convert_formatting, star, underscore.
  repeat split.
  - rewrite (@sub_delimited_span "**" "**" "\textbf{" _ _ _ _ pre body post
               eq_refl eq_refl) by assumption.
    repeat pass_unchanged. reflexivity.
  - pass_unchanged.
    rewrite (@sub_delimited_span "__" "__" "\textbf{" _ _ _ _ pre body post
               eq_refl eq_refl) by assumption.
    repeat pass_unchanged. reflexivity.
  - assert (D : _) by
      (apply (@sub_double_on_single "**" "**" (template "\textbf{" "}") 42%N []
                pre body post eq_refl); assumption).
    assert (I : _) by
      (apply (@sub_italic_span 42%N "\textit{" pre body post); assumption).
    match type of D with
    | sub _ _ ?t = _ =>
        change (pre ++ lit "*" ++ body ++ lit "*" ++ post) with t
    end.
    rewrite D. pass_unchanged. rewrite I.
    repeat pass_unchanged. reflexivity.
  - assert (D : _) by
      (apply (@sub_double_on_single "__" "__" (template "\textbf{" "}") 95%N []
                pre body post eq_refl); assumption).
    assert (I : _) by
      (apply (@sub_italic_span 95%N "\textit{" pre body post); assumption).
    match type of D with
    | sub _ _ ?t = _ =>
        change (pre ++ lit "_" ++ body ++ lit "_" ++ post) with t
    end.
    pass_unchanged. rewrite D. pass_unchanged. rewrite I.
    repeat pass_unchanged. reflexivity.
  - do 4 pass_unchanged.
    rewrite (@sub_delimited_span "<u>" "</u>" "\underline{" _ _ _ _
               pre body post eq_refl eq_refl) by assumption.
    repeat pass_unchanged. reflexivity.
  - do 5 pass_unchanged.
    rewrite (@sub_delimited_span "^" "^" "\textsuperscript{" _ _ _ _
               pre body post eq_refl eq_refl) by assumption.
    repeat pass_unchanged. reflexivity.
  - do 6 pass_unchanged.
    rewrite (@sub_delimited_span "~" "~" "\textsubscript{" _ _ _ _
               pre body post eq_refl eq_refl) by assumption.
    reflexivity.
Qed.

Lemma emphasis_spans_witness :
  convert_formatting (lit "a " ++ lit "**" ++ lit "b c" ++ lit "**" ++ lit " d")
    = lit "a " ++ lit "\textbf{" ++ lit "b c" ++ lit "}" ++ lit " d"
  /\ convert_formatting (lit "a " ++ lit "__" ++ lit "b c" ++ lit "__" ++ lit " d")
    = lit "a " ++ lit "\textbf{" ++ lit "b c" ++ lit "}" ++ lit " d"
  /\ convert_formatting (lit "a " ++ lit "*" ++ lit "b c" ++ lit "*" ++ lit " d")
    = lit "a " ++ lit "\textit{" ++ lit "b c" ++ lit "}" ++ lit " d"
  /\ convert_formatting (lit "a " ++ lit "_" ++ lit "b c" ++ lit "_" ++ lit " d")
    = lit "a " ++ lit "\textit{" ++ lit "b c" ++ lit "}" ++ lit " d"
  /\ convert_formatting (lit "a " ++ lit "<u>" ++ lit "b c" ++ lit "</u>" ++ lit " d")
    = lit "a " ++ lit "\underline{" ++ lit "b c" ++ lit "}" ++ lit " d"
  /\ convert_formatting (lit "a " ++ lit "^" ++ lit "b c" ++ lit "^" ++ lit " d")
    = lit "a " ++ lit "\textsuperscript{" ++ lit "b c" ++ lit "}" ++ lit " d"
  /\ convert_formatting (lit "a " ++ lit "~" ++ lit "b c" ++ lit "~" ++ lit " d")
    = lit "a " ++ lit "\textsubscript{" ++ lit "b c" ++ lit "}" ++ lit " d".
Proof.
  apply (@emphasis_spans (lit "a ") (lit "b c") (lit " d")).
  - reflexivity.
  - reflexivity.
  - reflexivity.
  - discriminate.
  - reflexivity.
Defined.

(** ** The symbol pass, again *)

Lemma forallb_flat_map (P : char -> bool) (f : char -> str) (s : str) :
  (forall c, forallb P (f c) = true \/ (f c = [c] /\ P c = true)) ->
  forallb P (flat_map f s) = true.
Proof.
  intros H. induction s as [|c s IH]; [reflexivity|].
  cbn [flat_map]. rewrite forallb_app, IH, andb_true_r.
  destruct (H c) as [E|[E Pc]]; [exact E|].
  rewrite E. cbn. rewrite Pc. reflexivity.
Qed.

Lemma symbol_replacement_clean table c :
  clean table = true ->
  forallb (fun d => negb (is_key table d)) (symbol_replacement table c) = true
  \/ (symbol_replacement table c = [c] /\ negb (is_key table c) = true).
Proof.
  intros Hc. unfold symbol_replacement.
  destruct (find (fun e : char * str => N.eqb (fst e) c) table) as [e|] eqn:E.
  - left. apply find_some in E as [Hin _].
    unfold clean in Hc. rewrite forallb_forall in Hc. apply Hc. exact Hin.
  - right. split; [reflexivity|].
    apply negb_true_iff. unfold is_key.
    destruct (existsb (fun e : char * str => N.eqb (fst e) c) table) eqn:X;
      [|reflexivity].
    apply existsb_exists in X as (e & Hin & He).
    pose proof (find_none _ _ E e Hin) as Hn. cbn beta in Hn. congruence.
Qed.

Lemma unicode_map_clean : clean (unicode_map init) = true.
Proof. vm_compute. reflexivity. Qed.

Lemma convert_unicode_chars_flat_map text :
  fst (convert_unicode_chars text init)
  = flat_map (symbol_replacement (unicode_map init)) text.
Proof.
  unfold convert_unicode_chars, bind, ret, get_unicode_map. cbn [fst].
  apply symbol_loop. exact unicode_map_clean.
Qed.

(** X7: after the symbol pass no symbol of the table is left in the text,
    whatever the input, and a second run of the pass changes nothing: no
    replacement text holds a symbol of the table. *)
Theorem symbol_pass_leaves_no_symbol :
  forall text : str,
    symbol_free (fst (convert_unicode_chars text init)) = true
    /\ fst (convert_unicode_chars (fst (convert_unicode_chars text init)) init)
       = fst (convert_unicode_chars text init).
Proof.
  intros text.
  assert (H : symbol_free (fst (convert_unicode_chars text init)) = true).
  { rewrite convert_unicode_chars_flat_map. unfold symbol_free.
    apply forallb_flat_map. intros c.
    apply symbol_replacement_clean. exact unicode_map_clean. }
  split; [exact H|].
  rewrite (convert_unicode_chars_flat_map (fst (convert_unicode_chars text init))).
  apply symbol_replacement_no_key. exact H.
Qed.

Lemma symbol_free_unchanged text :
  symbol_free text = true -> fst (convert_unicode_chars text init) = text.
Proof.
  intros H. rewrite convert_unicode_chars_flat_map.
  apply symbol_replacement_no_key. exact H.
Qed.

(** ** Single blank lines *)

Lemma quiet_mono s : forall m n, m <= n -> quiet n s = true -> quiet m s = true.
Proof.
  induction s as [|c s IH]; intros m n Hmn H; [reflexivity|].
  cbn [quiet] in *. destruct (N.eqb c nl).
  - apply andb_true_iff in H as [Hn H]. apply Nat.ltb_lt in Hn.
    apply andb_true_iff. split; [apply Nat.ltb_lt; lia|].
    apply (IH (S m) (S n)); [lia|exact H].
  - destruct (Unicode.isspace c); [apply (IH m n); assumption|exact H].
Qed.

Lemma quiet_suffix a : forall b n,
  quiet n (a ++ b) = true -> quiet 0 b = true.
Proof.
  induction a as [|c a IH]; intros b n H.
  - apply (@quiet_mono b 0 n); [lia|exact H].
  - cbn [app quiet] in H. destruct (N.eqb c nl).
    + apply andb_true_iff in H as [_ H]. apply (IH b _ H).
    + destruct (Unicode.isspace c); apply (IH b _ H).
Qed.

Lemma quiet_whitespace w : forall x n,
  forallb Unicode.isspace w = true -> quiet n (w ++ x) = true ->
  exists n', n <= n' /\ quiet n' x = true.
Proof.
  induction w as [|c w IH]; intros x n Hw H.
  - exists n. split; [lia|exact H].
  - cbn [forallb] in Hw. apply andb_true_iff in Hw as [Hc Hw].
    cbn [app quiet] in H. destruct (N.eqb c nl).
    + apply andb_true_iff in H as [_ H].
      destruct (IH x (S n) Hw H) as (n' & Hle & Hq).
      exists n'. split; [lia|exact Hq].
    + rewrite Hc in H. apply (IH x n Hw H).
Qed.

Lemma quiet_no_match prev s :
  quiet 0 s = true -> match_at blank_lines_re prev s = None.
Proof.
  intros Hq.
  destruct (match_at blank_lines_re prev s) as [[caps n]|] eqn:M;
    [exfalso|reflexivity].
  unfold match_at, blank_lines_re, seqs in M. cbn [fold_right] in M.
  destruct (run _ done prev s []) as [[caps' rest]|] eqn:E; [|discriminate].
  clear M. cbn [run] in E.
  destruct s as [|c s1]; [discriminate|].
  destruct (chr_is nl c) eqn:Hc; [|discriminate].
  apply chr_is_true in Hc. subst c.
  apply rep_sound in E as (t1 & r1 & -> & H1 & _ & E).
  destruct r1 as [|c2 s2]; [discriminate|].
  destruct (chr_is nl c2) eqn:Hc2; [|discriminate].
  apply chr_is_true in Hc2. subst c2.
  apply rep_sound in E as (t2 & r2 & -> & H2 & _ & E).
  apply rep_sound in E as (t3 & r3 & -> & H3 & Hlen & _).
  destruct t3 as [|c3 t3]; [simpl in Hlen; lia|].
  cbn [forallb] in H3. apply andb_true_iff in H3 as [Hc3 _].
  apply chr_is_true in Hc3. subst c3.
  cbn [quiet] in Hq. rewrite N.eqb_refl in Hq. cbn [Nat.ltb Nat.leb andb] in Hq.
  apply (quiet_whitespace t1 _ 1 H1) in Hq as (n1 & Hn1 & Hq).
  cbn [quiet] in Hq. rewrite N.eqb_refl in Hq.
  apply andb_true_iff in Hq as [Hlt Hq]. apply Nat.ltb_lt in Hlt.
  apply (quiet_whitespace t2 _ (S n1) H2) in Hq as (n2 & Hn2 & Hq).
  cbn [app quiet] in Hq. rewrite N.eqb_refl in Hq.
  apply andb_true_iff in Hq as [Hlt2 _]. apply Nat.ltb_lt in Hlt2. lia.
Qed.

Lemma handle_blank_lines_quiet :
  forall text : str, quiet 0 text = true -> handle_blank_lines text = text.
Proof.
  intros text H. unfold handle_blank_lines, sub.
  apply sub_loop_nowhere. intros a b pv E.
  apply quiet_no_match. apply (@quiet_suffix a b 0). rewrite <- E. exact H.
Qed.

(** X3: the blank-lines pass returns the text unchanged when no stretch of
    whitespace in it holds three line feeds; single blank lines stay. *)
Theorem single_blank_lines_unchanged :
  forall text : str, quiet 0 text = true -> handle_blank_lines text = text.
Proof. exact handle_blank_lines_quiet. Qed.

Lemma single_blank_lines_unchanged_witness :
  handle_blank_lines (lit "a" ++ [nl; nl] ++ lit "b" ++ [nl; space; nl])
  = lit "a" ++ [nl; nl] ++ lit "b" ++ [nl; space; nl].
Proof.
  apply (@single_blank_lines_unchanged
           (lit "a" ++ [nl; nl] ++ lit "b" ++ [nl; space; nl])).
  reflexivity.
Defined.

(** ** The command line without the wrapper *)

(** X12: [main] with [--no-document] on an input that is a readable text
    file.  The text is read with [\r\n] and [\r] as [\n].  With an output
    path (the positional one if it is given and not empty, else the one of
    [-o]) that is not empty: if [open] accepts it for writing, the conversion
    without the document structure becomes the content of the file there,
    one line [Converted <input> to <output>] goes to the standard output and
    the exit status is 0; if [open] refuses it (a missing directory, say),
    no file changes, nothing goes to the standard output, the error goes to
    the standard error and the exit status is 1.  With no output path, or an
    empty one, the conversion is printed on the standard output, no file
    changes and the exit status is 0. *)
Theorem main_no_document :
  forall (i : str) (o o_flag tpl : option str) (w : Cli.world) (raw : str),
    Cli.node_of (Cli.files w) i = Cli.TextFile raw ->
    (forall out,
       Cli.py_or o o_flag = Some out -> out <> [] ->
       Cli.writable (Cli.files w) out = true ->
       Cli.main (no_document_args i o o_flag tpl) w
       = (0%Z,
          {| Cli.files :=
               Cli.store (Cli.files w) out
                 (converted (Cli.universal_newlines raw) false);
             Cli.stdout :=
               Cli.stdout w ++ [lit "Converted " ++ i ++ lit " to " ++ out];
             Cli.stderr := Cli.stderr w |}))
    /\ (forall out,
          Cli.py_or o o_flag = Some out -> out <> [] ->
          Cli.writable (Cli.files w) out = false ->
          Cli.main (no_document_args i o o_flag tpl) w
          = (1%Z,
             {| Cli.files := Cli.files w;
                Cli.stdout := Cli.stdout w;
                Cli.stderr :=
                  Cli.stderr w
                  ++ [lit "Error: "
                        ++ Cli.message
                             (Cli.error_at (Cli.files w) out Cli.Writing)] |}))
    /\ (Cli.truthy (Cli.py_or o o_flag) = false ->
        Cli.main (no_document_args i o o_flag tpl) w
        = (0%Z,
           {| Cli.files := Cli.files w;
              Cli.stdout :=
                Cli.stdout w ++ [converted (Cli.universal_newlines raw) false];
              Cli.stderr := Cli.stderr w |})).
Proof.
  intros i o o_flag tpl w raw Hin. split; [|split].
  - intros out Hout Hne Hok.
    unfold Cli.main, Cli.main_body, no_document_args.
    cbn [Cli.no_document Cli.input Cli.output Cli.output_file].
    rewrite Hout. unfold Cli.and_then, Cli.read_text. rewrite Hin.
    destruct out as [|c out]; [congruence|]. cbn [Cli.truthy].
    unfold Cli.write_text. rewrite Hok. reflexivity.
  - intros out Hout Hne Hno.
    unfold Cli.main, Cli.main_body, no_document_args.
    cbn [Cli.no_document Cli.input Cli.output Cli.output_file].
    rewrite Hout. unfold Cli.and_then, Cli.read_text. rewrite Hin.
    destruct out as [|c out]; [congruence|]. cbn [Cli.truthy].
    unfold Cli.write_text. rewrite Hno. reflexivity.
  - intros Hf.
    unfold Cli.main, Cli.main_body, no_document_args.
    cbn [Cli.no_document Cli.input Cli.output Cli.output_file].
    unfold Cli.and_then, Cli.read_text. rewrite Hin, Hf. reflexivity.
Qed.

Lemma main_no_document_witness :
  let w := two_paths (lit "a.md") (lit "hi" ++ [cr; nl] ++ lit "you")
             (lit "a.tex") in
  Cli.main (no_document_args (lit "a.md") (Some (lit "a.tex")) None None) w
  = (0%Z,
     {| Cli.files :=
          Cli.store (Cli.files w) (lit "a.tex") (lit "hi" ++ [nl] ++ lit "you");
        Cli.stdout := [lit "Converted a.md to a.tex"];
        Cli.stderr := [] |})
  /\ Cli.main (no_document_args (lit "a.md") None (Some (lit "out/a.tex")) None) w
     = (1%Z,
        {| Cli.files := Cli.files w;
           Cli.stdout := [];
           Cli.stderr :=
             [lit "Error: [Errno 2] No such file or directory: 'out/a.tex'"] |})
  /\ Cli.main (no_document_args (lit "a.md") None None None) w
     = (0%Z,
        {| Cli.files := Cli.files w;
           Cli.stdout := [lit "hi" ++ [nl] ++ lit "you"];
           Cli.stderr := [] |}).
Proof.
  intros w. split; [|split].
  - apply (proj1 (@main_no_document (lit "a.md") (Some (lit "a.tex")) None None
                    w (lit "hi" ++ [cr; nl] ++ lit "you") eq_refl)
             (lit "a.tex")).
    + reflexivity.
    + discriminate.
    + reflexivity.
  - apply (proj1 (proj2 (@main_no_document (lit "a.md") None
                           (Some (lit "out/a.tex")) None
                           w (lit "hi" ++ [cr; nl] ++ lit "you") eq_refl))
             (lit "out/a.tex")).
    + reflexivity.
    + discriminate.
    + reflexivity.
  - apply (proj2 (proj2 (@main_no_document (lit "a.md") None None None
                           w (lit "hi" ++ [cr; nl] ++ lit "you") eq_refl))).
    reflexivity.
Defined.

(** X13: [main] with [--no-document] on an input path that names no file
    exits with status 1: no file changes, nothing goes to the standard
    output, and one line that starts with [Error: ] goes to the standard
    error. *)
Theorem main_no_document_missing_input :
  forall (i : str) (o o_flag tpl : option str) (w : Cli.world),
    Cli.present (Cli.files w) i = false ->
    exists msg,
      Cli.main (no_document_args i o o_flag tpl) w
      = (1%Z,
         {| Cli.files := Cli.files w;
            Cli.stdout := Cli.stdout w;
            Cli.stderr := Cli.stderr w ++ [lit "Error: " ++ msg] |}).
Proof.
  intros i o o_flag tpl w Hin. eexists.
  unfold Cli.main, Cli.main_body, no_document_args.
  cbn [Cli.no_document Cli.input Cli.output Cli.output_file].
  unfold Cli.and_then, Cli.read_text.
  unfold Cli.present in Hin.
  destruct (Cli.node_of (Cli.files w) i); try discriminate; reflexivity.
Qed.

Lemma main_no_document_missing_input_witness :
  exists msg,
    Cli.main (no_document_args (lit "b.md") (Some (lit "b.tex")) None None)
      (two_paths (lit "a.md") (lit "hi") (lit "a.tex"))
    = (1%Z,
       {| Cli.files := Cli.files (two_paths (lit "a.md") (lit "hi") (lit "a.tex"));
          Cli.stdout := Cli.stdout (two_paths (lit "a.md") (lit "hi") (lit "a.tex"));
          Cli.stderr :=
            Cli.stderr (two_paths (lit "a.md") (lit "hi") (lit "a.tex"))
              ++ [lit "Error: " ++ msg] |}).
Proof.
  apply (@main_no_document_missing_input (lit "b.md") (Some (lit "b.tex"))
           None None (two_paths (lit "a.md") (lit "hi") (lit "a.tex"))).
  reflexivity.
Defined.

(** X14: [convert_file] works on the paths as [pathlib] writes them
    ([./a.md] is [a.md]).  When the input path names no file it raises
    [FileNotFoundError] with the message [Input file <input> not found] and
    changes nothing.  When the input is a readable text file, read with
    [\r\n] and [\r] as [\n], and an output path is given: if [open] accepts
    it for writing, the conversion with the document structure becomes the
    content of the file there, [Converted <input> to <output>] is printed
    and the output path is returned; if [open] refuses it, the error of
    [open] is raised and nothing changes. *)
Theorem convert_file_behaviour :
  forall (i out : Cli.path) (w : Cli.world),
    let input := Cli.fspath (Cli.Path i) in
    let output := Cli.fspath (Cli.Path out) in
    (Cli.present (Cli.files w) input = false ->
     forall o, Cli.convert_file i o w
     = (inl (Cli.FileNotFoundError
               (lit "Input file " ++ input ++ lit " not found")), w))
    /\ (forall raw,
          Cli.node_of (Cli.files w) input = Cli.TextFile raw ->
          Cli.writable (Cli.files w) output = true ->
          Cli.convert_file i (Some out) w
          = (inr (Cli.Path out),
             {| Cli.files :=
                  Cli.store (Cli.files w) output
                    (add_latex_preamble
                       (converted (Cli.universal_newlines raw) false));
                Cli.stdout :=
                  Cli.stdout w
                  ++ [lit "Converted " ++ input ++ lit " to " ++ output];
                Cli.stderr := Cli.stderr w |}))
    /\ (forall raw,
          Cli.node_of (Cli.files w) input = Cli.TextFile raw ->
          Cli.writable (Cli.files w) output = false ->
          Cli.convert_file i (Some out) w
          = (inl (Cli.error_at (Cli.files w) output Cli.Writing), w)).
Proof.
  intros i out w input output. subst input output. split; [|split].
  - intros Hin o. unfold Cli.convert_file, Cli.and_then, Cli.path_exists.
    rewrite Hin. reflexivity.
  - intros raw Hin Hok.
    unfold Cli.convert_file, Cli.and_then, Cli.path_exists, Cli.read_text,
      Cli.write_text, Cli.present, Cli.pure.
    rewrite Hin. cbn [negb]. rewrite Hin, Hok. reflexivity.
  - intros raw Hin Hno.
    unfold Cli.convert_file, Cli.and_then, Cli.path_exists, Cli.read_text,
      Cli.write_text, Cli.present, Cli.pure.
    rewrite Hin. cbn [negb]. rewrite Hin, Hno. reflexivity.
Qed.

Lemma convert_file_behaviour_witness :
  let w := two_paths (lit "a.md") (lit "hi" ++ [cr] ++ lit "you")
             (lit "a.tex") in
  (forall o,
     Cli.convert_file (lit "./b.md") o w
     = (inl (Cli.FileNotFoundError (lit "Input file b.md not found")), w))
  /\ Cli.convert_file (lit "./a.md") (Some (lit ".//a.tex")) w
     = (inr (Cli.Path (lit "a.tex")),
        {| Cli.files :=
             Cli.store (Cli.files w) (lit "a.tex")
               (add_latex_preamble (lit "hi" ++ [nl] ++ lit "you"));
           Cli.stdout := [lit "Converted a.md to a.tex"];
           Cli.stderr := [] |})
  /\ Cli.convert_file (lit "a.md") (Some (lit "out/a.tex")) w
     = (inl (Cli.FileNotFoundError
               (lit "[Errno 2] No such file or directory: 'out/a.tex'")), w).
Proof.
  intros w. split; [|split].
  - apply (proj1 (@convert_file_behaviour (lit "./b.md") (lit "a.tex") w)).
    reflexivity.
  - apply (proj1 (proj2 (@convert_file_behaviour (lit "./a.md")
                           (lit ".//a.tex") w))
             (lit "hi" ++ [cr] ++ lit "you")).
    + reflexivity.
    + reflexivity.
  - apply (proj2 (proj2 (@convert_file_behaviour (lit "a.md")
                           (lit "out/a.tex") w))
             (lit "hi" ++ [cr] ++ lit "you")).
    + reflexivity.
    + reflexivity.
Defined.

(** ** The whitespace pass, again *)

Lemma avoids_firstn first n (s : str) :
  avoids first s = true -> avoids first (firstn n s) = true.
Proof.
  revert n. induction s as [|c s IH]; intros [|n] H; try reflexivity.
  unfold avoids in *. cbn [firstn forallb] in *.
  apply andb_true_iff in H as [Hc H]. rewrite Hc. apply (IH n H).
Qed.

Lemma avoids_skipn first n (s : str) :
  avoids first s = true -> avoids first (skipn n s) = true.
Proof.
  revert n. induction s as [|c s IH]; intros [|n] H; try reflexivity; auto.
  unfold avoids in *. cbn [skipn forallb] in *.
  apply andb_true_iff in H as [Hc H]. apply (IH n H).
Qed.

Lemma avoids_repeat first (c : char) n :
  first c = false -> avoids first (repeat c n) = true.
Proof.
  intros Hc. induction n as [|n IH]; [reflexivity|].
  unfold avoids in *. cbn [repeat forallb]. rewrite Hc, IH. reflexivity.
Qed.

Lemma digit_not_blank n : blank (48 + n mod 10)%N = false.
Proof.
  unfold blank, space, tab.
  pose proof (N.mod_upper_bound n 10 ltac:(discriminate)).
  apply orb_false_iff.
  split; apply N.eqb_neq; generalize dependent (n mod 10)%N; intros; lia.
Qed.

Lemma digits_of_not_blank fuel : forall n acc,
  avoids blank acc = true -> avoids blank (PyStr.digits_of fuel n acc) = true.
Proof.
  induction fuel as [|f IH]; intros n acc H; [exact H|].
  cbn [PyStr.digits_of].
  assert (H' : avoids blank ((48 + n mod 10)%N :: acc) = true).
  { unfold avoids in *. cbn [forallb]. rewrite digit_not_blank, H. reflexivity. }
  destruct (n <? 10)%N; [exact H'|apply IH; exact H'].
Qed.

Lemma str_of_N_not_blank n : avoids blank (PyStr.str_of_N n) = true.
Proof. unfold PyStr.str_of_N. apply digits_of_not_blank. reflexivity. Qed.

Ltac avoid_parts :=
  repeat first
    [ rewrite avoids_app
    | rewrite str_of_N_not_blank
    | rewrite avoids_firstn by assumption
    | rewrite avoids_skipn by assumption
    | rewrite avoids_repeat by reflexivity
    | match goal with H : avoids _ _ = true |- _ => rewrite H end ].

Lemma layout_not_blank digits decpt :
  avoids blank digits = true ->
  avoids blank (PyFloat.layout digits decpt) = true.
Proof.
  intros H. unfold PyFloat.layout, PyFloat.zeros.
  repeat match goal with
         | |- context [if ?b then _ else _] => destruct b
         end;
    avoid_parts; reflexivity.
Qed.

Lemma str_of_float_not_blank x : avoids blank (PyFloat.str_of_float x) = true.
Proof.
  destruct x as [s|s| |s m e]; cbn [PyFloat.str_of_float];
    try (destruct s; reflexivity); try reflexivity.
  destruct (PyFloat.shortest m e) as [d q].
  destruct (PyFloat.strip_zeros 17 d q) as [d' q'].
  rewrite avoids_app, layout_not_blank by apply str_of_N_not_blank.
  destruct s; reflexivity.
Qed.

Lemma hspace_not_blank n : avoids blank (hspace n) = true.
Proof.
  unfold hspace, hspace_size. rewrite !avoids_app, str_of_float_not_blank.
  reflexivity.
Qed.

Lemma avoids_blank_space s : avoids blank s = true -> avoids (N.eqb space) s = true.
Proof.
  unfold avoids. intros H. rewrite forallb_forall in *. intros c Hc.
  specialize (H c Hc). unfold blank in H. apply negb_true_iff in H.
  apply orb_false_iff in H as [H _]. rewrite N.eqb_sym, H. reflexivity.
Qed.

Lemma avoids_blank_tab s : avoids blank s = true -> avoids (N.eqb tab) s = true.
Proof.
  unfold avoids. intros H. rewrite forallb_forall in *. intros c Hc.
  specialize (H c Hc). unfold blank in H. apply negb_true_iff in H.
  apply orb_false_iff in H as [_ H]. rewrite N.eqb_sym, H. reflexivity.
Qed.

Lemma no_double_space_cons c s :
  N.eqb c space = false -> no_double_space (c :: s) = no_double_space s.
Proof. intros H. destruct s as [|d s]; cbn [no_double_space]; [reflexivity|]. rewrite H. reflexivity. Qed.

Lemma no_double_space_avoids s :
  avoids (N.eqb space) s = true -> no_double_space s = true.
Proof.
  induction s as [|c s IH]; intros H; [reflexivity|].
  unfold avoids in H. cbn [forallb] in H. apply andb_true_iff in H as [Hc H].
  apply negb_true_iff in Hc. rewrite no_double_space_cons by (rewrite N.eqb_sym; exact Hc).
  apply IH. exact H.
Qed.

Lemma no_double_space_two c d s :
  no_double_space (c :: d :: s)
  = negb (N.eqb c space && N.eqb d space) && no_double_space (d :: s).
Proof. reflexivity. Qed.

(** Two texts joined by a character that is no space *)
Lemma no_double_space_join a : forall c b,
  N.eqb c space = false ->
  no_double_space a = true -> no_double_space b = true ->
  no_double_space (a ++ c :: b) = true.
Proof.
  induction a as [|x a IH]; intros c b Hc Ha Hb.
  - cbn [app]. rewrite no_double_space_cons; assumption.
  - destruct a as [|y a].
    + cbn [app]. rewrite no_double_space_two, Hc, andb_false_r. cbn [negb andb].
      rewrite no_double_space_cons; assumption.
    + cbn [app]. rewrite no_double_space_two in *.
      apply andb_true_iff in Ha as [Hxy Ha].
      rewrite Hxy. cbn [andb]. apply (IH c b Hc Ha Hb).
Qed.

Lemma run_command_no_double n : no_double_space (run_command hspace_size n) = true.
Proof.
  destruct n as [|[|n]]; try reflexivity.
  apply no_double_space_avoids, avoids_blank_space. apply (hspace_not_blank (S (S n))).
Qed.

Lemma collapse_no_double s : forall pending,
  no_double_space (collapse_runs hspace_size pending s) = true.
Proof.
  induction s as [|c s IH]; intros pending; cbn [collapse_runs].
  - apply run_command_no_double.
  - destruct (N.eqb c space) eqn:Hc; [apply IH|].
    apply no_double_space_join; auto. apply run_command_no_double.
Qed.

Lemma run_command_no_tab n : avoids (N.eqb tab) (run_command hspace_size n) = true.
Proof.
  destruct n as [|[|n]]; try reflexivity.
  apply avoids_blank_tab. apply (hspace_not_blank (S (S n))).
Qed.

Lemma collapse_no_tab s : forall pending,
  avoids (N.eqb tab) s = true ->
  avoids (N.eqb tab) (collapse_runs hspace_size pending s) = true.
Proof.
  induction s as [|c s IH]; intros pending H; cbn [collapse_runs].
  - apply run_command_no_tab.
  - unfold avoids in H. cbn [forallb] in H. apply andb_true_iff in H as [Hc H].
    destruct (N.eqb c space); [apply IH; exact H|].
    rewrite avoids_app, run_command_no_tab. unfold avoids. cbn [forallb andb].
    rewrite Hc. apply (IH 0 H).
Qed.

Lemma expandtabs_avoids_tab text :
  avoids (N.eqb tab) (PyStr.expandtabs 4 text) = true.
Proof.
  unfold avoids, PyStr.expandtabs.
  pose proof (expandtabs_no_tab text 0) as H.
  generalize dependent (PyStr.expandtabs_from 4 0 text). intros s H.
  induction s as [|c s IH]; [reflexivity|].
  cbn [existsb forallb] in *. apply orb_false_iff in H as [Hc H].
  rewrite Hc. apply IH. exact H.
Qed.

Lemma preserve_whitespace_collapse text :
  preserve_whitespace text
  = collapse_runs hspace_size 0 (PyStr.expandtabs 4 text).
Proof.
  unfold preserve_whitespace, sub.
  apply (sub_spaces_collapse (PyStr.expandtabs 4 text) 0 None).
Qed.

(** A text without tabs is its own expansion. *)
Lemma expandtabs_unchanged s : forall col,
  avoids (N.eqb tab) s = true -> PyStr.expandtabs_from 4 col s = s.
Proof.
  induction s as [|c s IH]; intros col H; [reflexivity|].
  unfold avoids in H. cbn [forallb] in H. apply andb_true_iff in H as [Hc H].
  apply negb_true_iff in Hc. cbn [PyStr.expandtabs_from].
  rewrite N.eqb_sym, Hc. f_equal. apply IH. exact H.
Qed.

(** Runs of one space stay. *)
Lemma collapse_unchanged s : forall pending,
  pending <= 1 ->
  no_double_space (repeat space pending ++ s) = true ->
  collapse_runs hspace_size pending s = repeat space pending ++ s.
Proof.
  induction s as [|c s IH]; intros pending Hp H.
  - cbn [collapse_runs]. rewrite app_nil_r.
    destruct pending as [|[|p]]; [reflexivity|reflexivity|lia].
  - cbn [collapse_runs]. destruct (N.eqb_spec c space) as [->|Hc].
    + destruct pending as [|[|p]]; [|exfalso|lia].
      * rewrite (IH 1); [reflexivity|lia|exact H].
      * cbn [repeat app] in H. rewrite no_double_space_two in H.
        rewrite N.eqb_refl in H. discriminate.
    + assert (Hc' : N.eqb c space = false) by (apply N.eqb_neq; exact Hc).
      rewrite (IH 0); [|lia|].
      * destruct pending as [|[|p]]; [reflexivity|reflexivity|lia].
      * cbn [repeat app].
        destruct pending as [|[|p]]; [| |lia]; cbn [repeat app] in H.
        -- rewrite no_double_space_cons in H by exact Hc'. exact H.
        -- rewrite no_double_space_two, Hc', andb_false_r in H.
           cbn [negb andb] in H.
           rewrite no_double_space_cons in H by exact Hc'. exact H.
Qed.

(** X8: the output of the whitespace pass holds no tab and no two adjacent
    spaces, whatever the input, and a second run of the pass changes
    nothing. *)
Theorem preserve_whitespace_output :
  forall text : str,
    avoids (N.eqb tab) (preserve_whitespace text) = true
    /\ no_double_space (preserve_whitespace text) = true
    /\ preserve_whitespace (preserve_whitespace text) = preserve_whitespace text.
Proof.
  intros text.
  assert (Ht : avoids (N.eqb tab) (preserve_whitespace text) = true).
  { rewrite preserve_whitespace_collapse. apply collapse_no_tab.
    apply expandtabs_avoids_tab. }
  assert (Hs : no_double_space (preserve_whitespace text) = true).
  { rewrite preserve_whitespace_collapse. apply collapse_no_double. }
  repeat split; auto.
  rewrite (preserve_whitespace_collapse (preserve_whitespace text)).
  unfold PyStr.expandtabs. rewrite expandtabs_unchanged by exact Ht.
  apply (collapse_unchanged (preserve_whitespace text) (pending := 0)); auto.
Qed.

Lemma preserve_whitespace_single :
  forall text : str,
    avoids (N.eqb tab) text = true -> no_double_space text = true ->
    preserve_whitespace text = text.
Proof.
  intros text Ht Hs. rewrite preserve_whitespace_collapse.
  unfold PyStr.expandtabs. rewrite expandtabs_unchanged by exact Ht.
  apply (collapse_unchanged text (pending := 0)); auto.
Qed.

(** X9: the whitespace pass returns the text unchanged when it holds no tab
    and no two adjacent spaces. *)
Theorem single_spaces_unchanged :
  forall text : str,
    avoids (N.eqb tab) text = true -> no_double_space text = true ->
    preserve_whitespace text = text.
Proof. exact preserve_whitespace_single. Qed.

Lemma single_spaces_unchanged_witness :
  preserve_whitespace (lit " a b" ++ nl :: lit "c ") = lit " a b" ++ nl :: lit "c ".
Proof.
  apply (@single_spaces_unchanged (lit " a b" ++ nl :: lit "c ")).
  - reflexivity.
  - reflexivity.
Defined.

(** ** Prose *)

Lemma avoids_weaken (first first' : char -> bool) (s : str) :
  (forall c, first' c = true -> first c = true) ->
  avoids first s = true -> avoids first' s = true.
Proof.
  intros Hw H. unfold avoids in *. rewrite forallb_forall in *.
  intros c Hc. specialize (H c Hc). apply negb_true_iff in H.
  apply negb_true_iff. destruct (first' c) eqn:E; [|reflexivity].
  rewrite (Hw c E) in H. discriminate.
Qed.

Lemma avoids_special_char d s :
  special d = true -> avoids special s = true -> avoids (N.eqb d) s = true.
Proof.
  intros Hd. apply avoids_weaken. intros c Hc.
  apply N.eqb_eq in Hc. subst c. exact Hd.
Qed.

Lemma heading_needs_hash h h' :
  lit h = hash :: h' -> needs_first (heading_re h) (N.eqb hash).
Proof.
  intros Hh prev c s Hc. unfold match_at, heading_re, seqs. cbn [fold_right].
  rewrite run_seq.
  assert (E : forall k caps,
             run (Seq (Str h) k) done prev (c :: s) caps = None).
  { intros k caps. rewrite run_seq, Str_chars, Hh.
    apply run_chars_first. exact Hc. }
  assert (B : forall k caps,
             run (Bol true) k prev (c :: s) caps
             = match prev with
               | None => k prev (c :: s) caps
               | Some p => if true && N.eqb p nl then k prev (c :: s) caps else None
               end) by reflexivity.
  rewrite B. destruct prev as [p|].
  - destruct (true && N.eqb p nl); [|reflexivity].
    rewrite (E _ []). reflexivity.
  - rewrite (E _ []). reflexivity.
Qed.

Lemma convert_headings_unchanged text :
  avoids (N.eqb hash) text = true -> convert_headings text = text.
Proof.
  intros H. unfold convert_headings.
  rewrite (@sub_unchanged (heading_re "#") _ _ text
             (@heading_needs_hash "#" _ eq_refl) H).
  rewrite (@sub_unchanged (heading_re "##") _ _ text
             (@heading_needs_hash "##" _ eq_refl) H).
  rewrite (@sub_unchanged (heading_re "###") _ _ text
             (@heading_needs_hash "###" _ eq_refl) H).
  rewrite (@sub_unchanged (heading_re "####") _ _ text
             (@heading_needs_hash "####" _ eq_refl) H).
  apply (@sub_unchanged (heading_re "#####") _ _ text
           (@heading_needs_hash "#####" _ eq_refl) H).
Qed.

Lemma convert_formatting_unchanged text :
  avoids marker text = true -> convert_formatting text = text.
Proof.
  intros H.
  pose proof (@avoids_marker 42%N _ eq_refl H).
  pose proof (@avoids_marker 95%N _ eq_refl H).
  pose proof (@avoids_marker 60%N _ eq_refl H).
  pose proof (@avoids_marker 94%N _ eq_refl H).
  pose proof (@avoids_marker 126%N _ eq_refl H).
  unfold convert_formatting, star, underscore.
  rewrite (@sub_unchanged (delimited_re "**" "**") _ (N.eqb 42) text
             (@delimited_needs_first "**" "**" 42%N _ eq_refl)) by assumption.
  rewrite (@sub_unchanged (delimited_re "__" "__") _ (N.eqb 95) text
             (@delimited_needs_first "__" "__" 95%N _ eq_refl)) by assumption.
  rewrite (@sub_unchanged (italic_re 42%N) _ (N.eqb 42) text
             (italic_needs_first 42%N)) by assumption.
  rewrite (@sub_unchanged (italic_re 95%N) _ (N.eqb 95) text
             (italic_needs_first 95%N)) by assumption.
  rewrite (@sub_unchanged (delimited_re "<u>" "</u>") _ (N.eqb 60) text
             (@delimited_needs_first "<u>" "</u>" 60%N _ eq_refl)) by assumption.
  rewrite (@sub_unchanged (delimited_re "^" "^") _ (N.eqb 94) text
             (@delimited_needs_first "^" "^" 94%N _ eq_refl)) by assumption.
  apply (@sub_unchanged (delimited_re "~" "~") _ (N.eqb 126) text
           (@delimited_needs_first "~" "~" 126%N _ eq_refl)). assumption.
Qed.

Lemma split_chars sep s : forall l c,
  In l (PyStr.split sep s) -> In c l -> In c s.
Proof.
  induction s as [|x s IH]; intros l c Hl Hc.
  - simpl in Hl. destruct Hl as [<-|[]]. exact Hc.
  - cbn [PyStr.split] in Hl. destruct (N.eqb x sep).
    + destruct Hl as [<-|Hl]; [destruct Hc|]. right. apply (IH l c Hl Hc).
    + destruct (PyStr.split sep s) as [|l0 ls] eqn:E.
      * destruct Hl as [<-|[]]. destruct Hc as [<-|[]]. left. reflexivity.
      * destruct Hl as [<-|Hl].
        -- destruct Hc as [<-|Hc]; [left; reflexivity|].
           right. apply (IH l0 c); [left; reflexivity|exact Hc].
        -- right. apply (IH l c); [right; exact Hl|exact Hc].
Qed.

Lemma avoids_existsb first (s : str) :
  avoids first s = true -> existsb first s = false.
Proof.
  induction s as [|c s IH]; intros H; [reflexivity|].
  unfold avoids in H. cbn [forallb existsb] in *.
  apply andb_true_iff in H as [Hc H]. apply negb_true_iff in Hc.
  rewrite Hc. apply IH. exact H.
Qed.

Lemma avoids_line first sep (s l : str) :
  avoids first s = true -> In l (PyStr.split sep s) -> avoids first l = true.
Proof.
  intros H Hl. unfold avoids in *. rewrite forallb_forall in *.
  intros c Hc. apply H. apply (@split_chars sep s l c Hl Hc).
Qed.

Lemma convert_lists_unchanged text :
  avoids bullet_char text = true -> avoids Unicode.isdecimal text = true ->
  convert_lists text = text.
Proof.
  intros Hb Hd. apply convert_lists_plain_lines.
  apply forallb_forall. intros l Hl. apply no_markers_plain.
  - apply avoids_existsb. apply (@avoids_line _ nl text l Hb Hl).
  - apply avoids_existsb. apply (@avoids_line _ nl text l Hd Hl).
Qed.

Lemma escape_latex_chars_unchanged text :
  avoids (fun c => existsb (N.eqb c) [92; 38; 37; 35; 123; 125]%N) text = true ->
  escape_latex_chars text = text.
Proof.
  intros H. rewrite escape_latex_chars_flat_map.
  induction text as [|c text IH]; [reflexivity|].
  unfold avoids in H. cbn [forallb] in H. apply andb_true_iff in H as [Hc H].
  apply negb_true_iff in Hc. cbn [flat_map]. rewrite (IH H).
  unfold escape_char. cbn [existsb] in Hc |- *.
  apply orb_false_iff in Hc as [H92 Hc]. rewrite H92, Hc. reflexivity.
Qed.

(** X11: [convert] without the document structure returns prose unchanged: a
    text with no symbol of the table, none of
    [# * _ < ^ ~ + - & % { } \], no decimal digit and no tab, with no two
    adjacent spaces and no stretch of whitespace holding three line feeds. *)
Theorem prose_unchanged :
  forall text : str, prose text = true -> converted text false = text.
Proof.
  intros text H. unfold prose in H.
  apply andb_true_iff in H as [H Hq]. apply andb_true_iff in H as [Hs Hd].
  rewrite converted_unwrapped. unfold before_escaping.
  rewrite symbol_free_unchanged.
  2:{ apply (@avoids_weaken special _ text); [|exact Hs].
      intros c Hc. unfold special. rewrite Hc. reflexivity. }
  rewrite convert_headings_unchanged
    by (apply (@avoids_special_char hash text); [reflexivity|exact Hs]).
  rewrite convert_formatting_unchanged.
  2:{ apply (@avoids_weaken special _ text); [|exact Hs].
      intros c Hc. unfold marker in Hc. cbn [existsb] in Hc.
      repeat (apply orb_true_iff in Hc as [Hc|Hc];
              [apply N.eqb_eq in Hc; subst c; reflexivity|]).
      discriminate. }
  rewrite convert_lists_unchanged.
  2:{ apply (@avoids_weaken special _ text); [|exact Hs].
      intros c Hc. unfold bullet_char in Hc.
      repeat (apply orb_true_iff in Hc as [Hc|Hc];
              [|apply N.eqb_eq in Hc; subst c; reflexivity]).
      apply N.eqb_eq in Hc; subst c; reflexivity. }
  2:{ apply (@avoids_weaken special _ text); [|exact Hs].
      intros c Hc. unfold special. rewrite Hc. apply orb_true_r. }
  rewrite preserve_whitespace_single;
    [|apply (@avoids_special_char tab text); [reflexivity|exact Hs]|exact Hd].
  rewrite handle_blank_lines_quiet by exact Hq.
  apply escape_latex_chars_unchanged.
  apply (@avoids_weaken special _ text); [|exact Hs].
  intros c Hc. cbn [existsb] in Hc.
  repeat (apply orb_true_iff in Hc as [Hc|Hc];
          [apply N.eqb_eq in Hc; subst c; reflexivity|]).
  discriminate.
Qed.

Lemma prose_unchanged_witness :
  converted (lit "Hello, world." ++ [nl; nl] ++ lit "Good bye!") false
  = lit "Hello, world." ++ [nl; nl] ++ lit "Good bye!".
Proof.
  apply (@prose_unchanged (lit "Hello, world." ++ [nl; nl] ++ lit "Good bye!")).
  vm_compute. reflexivity.
Defined.

(** ** Headings inside a document *)

Lemma sub_loop_hashes h h' f k : forall rest,
  lit h = hash :: h' -> avoids (N.eqb hash) rest = true ->
  sub_loop (heading_re h) f 0 (Some hash) (repeat hash k ++ rest)
  = repeat hash k ++ rest.
Proof.
  induction k as [|k IH]; intros rest Hh Hr.
  - cbn [repeat app].
    apply (@sub_loop_all (heading_re h) f (N.eqb hash) rest (Some hash)
             (@heading_needs_hash h h' Hh) Hr).
  - cbn [repeat app]. rewrite sub_loop_cons, heading_needs_line_start by reflexivity.
    f_equal. apply IH; assumption.
Qed.

(** A heading pattern that does not match at the start of a run of hashes
    matches nowhere in the text around it. *)
Lemma sub_heading_other h h' f (pre rest : str) k :
  lit h = hash :: h' ->
  avoids (N.eqb hash) pre = true -> avoids (N.eqb hash) rest = true ->
  match_at (heading_re h) (cursor_prev None pre) (repeat hash (S k) ++ rest) = None ->
  sub (heading_re h) f (pre ++ repeat hash (S k) ++ rest)
  = pre ++ repeat hash (S k) ++ rest.
Proof.
  intros Hh Hp Hr Hm. unfold sub.
  rewrite (@sub_loop_passes (heading_re h) f (N.eqb hash) pre _ None
             (@heading_needs_hash h h' Hh) Hp).
  f_equal. cbn [repeat app] in *. rewrite sub_loop_cons, Hm. f_equal.
  apply (@sub_loop_hashes h h' f k rest Hh Hr).
Qed.

(** The heading pattern of the line's level replaces the line. *)
Lemma sub_heading_here h h' f (pre T post : str) k :
  lit h = hash :: h' ->
  avoids (N.eqb hash) pre = true -> avoids (N.eqb hash) post = true ->
  match_at (heading_re h) (cursor_prev None pre)
    (hash :: (repeat hash k ++ space :: T) ++ post)
  = Some ([T], S (List.length (repeat hash k ++ space :: T))) ->
  sub (heading_re h) f (pre ++ repeat hash (S k) ++ space :: T ++ post)
  = pre ++ f (repeat hash (S k) ++ space :: T) [T] ++ post.
Proof.
  intros Hh Hp Ho Hm. unfold sub.
  rewrite (@sub_loop_passes (heading_re h) f (N.eqb hash) pre _ None
             (@heading_needs_hash h h' Hh) Hp).
  f_equal. cbn [repeat app].
  change (hash :: repeat hash k ++ space :: T ++ post)
    with (hash :: repeat hash k ++ (space :: T) ++ post).
  rewrite app_assoc.
  rewrite (@sub_at_match (heading_re h) f _ hash _ post [T] Hm).
  f_equal.
  apply (@sub_loop_all (heading_re h) f (N.eqb hash) post _
           (@heading_needs_hash h h' Hh) Ho).
Qed.

(** After the hashes: a space, the rest of the line, the end of the line *)
Lemma heading_rest prev (T post : str) :
  T <> [] -> forallb dot T = true -> stops dot post ->
  run (seqs [Chr (chr_is space); Grp (Rep dot 1 true); EolM]) done
      prev (space :: T ++ post) [] = Some ([T], post).
Proof.
  intros Hne Hdot Hs. unfold seqs. cbn [fold_right].
  rewrite run_seq, run_chr by reflexivity.
  rewrite run_seq. apply run_group_greedy; auto.
  - apply nonempty_length; auto.
  - destruct post as [|c post]; [reflexivity|].
    cbn [stops] in Hs. unfold dot, chr_isnt in Hs.
    apply negb_false_iff in Hs. rewrite N.eqb_sym in Hs.
    cbn [run app]. rewrite Hs. reflexivity.
Qed.

Lemma heading_match_here h (pre T post : str) k :
  T <> [] -> forallb dot T = true -> stops dot post ->
  (forall prev, (prev = None \/ prev = Some nl) ->
     run (heading_re h) done prev (hash :: (repeat hash k ++ space :: T) ++ post) []
     = run (seqs [Chr (chr_is space); Grp (Rep dot 1 true); EolM]) done
         (Some hash) (space :: T ++ post) []) ->
  ends_line pre = true ->
  match_at (heading_re h) (cursor_prev None pre)
    (hash :: (repeat hash k ++ space :: T) ++ post)
  = Some ([T], S (List.length (repeat hash k ++ space :: T))).
Proof.
  intros Hne Hdot Hs E Hl. unfold match_at. rewrite E.
  - rewrite heading_rest by auto. f_equal. f_equal.
    cbn [List.length]. rewrite !length_app. cbn [List.length]. lia.
  - unfold ends_line in Hl. destruct (cursor_prev None pre) as [c|]; [|left; reflexivity].
    apply N.eqb_eq in Hl. subst c. right. reflexivity.
Qed.

Lemma heading_other_level h (pre rest : str) k :
  (forall prev, (prev = None \/ prev = Some nl) ->
     run (heading_re h) done prev (repeat hash (S k) ++ rest) [] = None) ->
  ends_line pre = true ->
  match_at (heading_re h) (cursor_prev None pre) (repeat hash (S k) ++ rest) = None.
Proof.
  intros E Hl. unfold match_at. rewrite E; [reflexivity|].
  unfold ends_line in Hl. destruct (cursor_prev None pre) as [c|]; [|left; reflexivity].
  apply N.eqb_eq in Hl. subst c. right. reflexivity.
Qed.

Ltac heading_elsewhere h Hp Hr Hl :=
  match goal with
  | |- context [sub (heading_re h) ?f (?pre ++ repeat hash (S ?k) ++ ?rest)] =>
      rewrite (@sub_heading_other h _ f pre rest k eq_refl Hp Hr
                 (@heading_other_level h pre rest k
                    ltac:(intros ? [->| ->]; reflexivity) Hl))
  end.

Ltac heading_here h T Hne Hdot Hs Hp Ho Hl :=
  match goal with
  | |- context [sub (heading_re h) ?f (?pre ++ repeat hash (S ?k) ++ space :: T ++ ?post)] =>
      rewrite (@sub_heading_here h _ f pre T post k eq_refl Hp Ho
                 (@heading_match_here h pre T post k Hne Hdot Hs
                    ltac:(intros ? [->| ->]; reflexivity) Hl))
  end.

Ltac heading_gone h H :=
  match goal with
  | |- context [sub (heading_re h) ?f ?x] =>
      rewrite (@sub_unchanged (heading_re h) f (N.eqb hash) x
                 (@heading_needs_hash h _ eq_refl) H)
  end.

(** X10: a heading line inside a document.  A line made of [k] hashes
    ([k] from 1 to 5), a space and a non-empty text [T], standing at the start
    of a line and reaching to the end of its line, in a text with no other
    hash, is replaced by the section command of depth [k] holding [T]; the
    lines before and after it are kept. *)
Theorem heading_line_in_document :
  forall (k : nat) (pre T post : str),
    1 <= k <= 5 -> T <> [] -> forallb dot T = true ->
    ends_line pre = true -> stops dot post ->
    avoids (N.eqb hash) pre = true -> avoids (N.eqb hash) T = true ->
    avoids (N.eqb hash) post = true ->
    convert_headings (pre ++ repeat hash k ++ space :: T ++ post)
    = pre ++ lit (section_command k) ++ T ++ lit "}" ++ post.
Proof.
  intros k pre T post Hk Hne Hdot Hl Hs Hp HT Ho.
  assert (Hr : avoids (N.eqb hash) (space :: T ++ post) = true).
  { change (space :: T ++ post) with ([space] ++ T ++ post).
    rewrite !avoids_app, HT, Ho. reflexivity. }
  assert (Hafter : forall c : string,
             avoids (N.eqb hash) (lit c) = true ->
             avoids (N.eqb hash) (pre ++ lit c ++ T ++ lit "}" ++ post) = true).
  { intros c Hc. rewrite !avoids_app, Hp, Hc, HT, Ho. reflexivity. }
  assert (Hcases : k = 1 \/ k = 2 \/ k = 3 \/ k = 4 \/ k = 5) by lia.
  unfold convert_headings.
  destruct Hcases as [->|[->|[->|[->| ->]]]].
  - heading_here "#"%string T Hne Hdot Hs Hp Ho Hl.
    unfold template, group. cbn [pred nth section_command].
    rewrite <- !app_assoc.
    pose proof (Hafter "\section{"%string eq_refl) as G.
    heading_gone "##"%string G. heading_gone "###"%string G.
    heading_gone "####"%string G. heading_gone "#####"%string G.
    reflexivity.
  - heading_elsewhere "#"%string Hp Hr Hl.
    heading_here "##"%string T Hne Hdot Hs Hp Ho Hl.
    unfold template, group. cbn [pred nth section_command].
    rewrite <- !app_assoc.
    pose proof (Hafter "\subsection{"%string eq_refl) as G.
    heading_gone "###"%string G.
    heading_gone "####"%string G. heading_gone "#####"%string G.
    reflexivity.
  - heading_elsewhere "#"%string Hp Hr Hl.
    heading_elsewhere "##"%string Hp Hr Hl.
    heading_here "###"%string T Hne Hdot Hs Hp Ho Hl.
    unfold template, group. cbn [pred nth section_command].
    rewrite <- !app_assoc.
    pose proof (Hafter "\subsubsection{"%string eq_refl) as G.
    heading_gone "####"%string G. heading_gone "#####"%string G.
    reflexivity.
  - heading_elsewhere "#"%string Hp Hr Hl.
    heading_elsewhere "##"%string Hp Hr Hl.
    heading_elsewhere "###"%string Hp Hr Hl.
    heading_here "####"%string T Hne Hdot Hs Hp Ho Hl.
    unfold template, group. cbn [pred nth section_command].
    rewrite <- !app_assoc.
    pose proof (Hafter "\paragraph{"%string eq_refl) as G.
    heading_gone "#####"%string G.
    reflexivity.
  - heading_elsewhere "#"%string Hp Hr Hl.
    heading_elsewhere "##"%string Hp Hr Hl.
    heading_elsewhere "###"%string Hp Hr Hl.
    heading_elsewhere "####"%string Hp Hr Hl.
    heading_here "#####"%string T Hne Hdot Hs Hp Ho Hl.
    unfold template, group. cbn [pred nth section_command].
    rewrite <- !app_assoc. reflexivity.
Qed.

Lemma heading_line_in_document_witness :
  convert_headings
    ((lit "intro" ++ [nl]) ++ repeat hash 2 ++ space :: lit "Title"
       ++ nl :: lit "text")
  = (lit "intro" ++ [nl]) ++ lit (section_command 2) ++ lit "Title" ++ lit "}"
      ++ nl :: lit "text".
Proof.
  apply (@heading_line_in_document 2 (lit "intro" ++ [nl]) (lit "Title")
           (nl :: lit "text")).
  - lia.
  - discriminate.
  - reflexivity.
  - reflexivity.
  - reflexivity.
  - reflexivity.
  - reflexivity.
  - reflexivity.
Defined.
